(** * Verification of [update_components.py] (class [ComponentUpdater])

  A shallow embedding of the updater: the file system is one store (the
  version record and the downloaded files live in the same name space),
  the network is an oracle that is fixed for a run, every request is
  logged, and Python exceptions that the code does not catch are an
  explicit outcome.  Logging calls ([logger.info] and the like) have no
  effect on what is modelled and are left out.

  The store is keyed by the file a path names ([canon]), not by the path
  as written: "c/./a.js" and "c/a.js" are one file.  What the machine
  decides is a parameter, the [host]: which paths name the same file, and
  which [os.makedirs] and [open] calls fail with an [OSError].  What Python
  decides alone is built in: an empty path cannot be created or opened,
  and a path that ends with a slash cannot be opened for writing.  The
  store holds the regular files; directories are left to the [host].  The
  answers of a [host] are the same throughout the runs a theorem speaks of:
  nothing but the updater touches the files, and the updater removes
  nothing.

  A file written by [json.dump] is kept as the JSON value it encodes and
  read back as that value; a downloaded file is kept as its bytes and read
  back through the text decoding of [open(..., 'r')] and [json.loads],
  either of which may fail.  The configuration is typed: every component
  has its "source_url" and "files", "use_releases" is a boolean when
  present. *)

From Stdlib Require Import Ascii String.
From stdpp Require Import base strings list gmap.
From Equations Require Import Equations.

Local Open Scope string_scope.
Local Set Warnings "-register-all".

(** ** Python strings *)

Module PyStr.

(** [s.startswith(p)] *)
Fixpoint startswith (p s : string) : bool :=
  match p, s with
  | EmptyString, _ => true
  | String a p', String b s' => if Ascii.eqb a b then startswith p' s' else false
  | String _ _, EmptyString => false
  end.

(** [s.endswith("/")] *)
Fixpoint ends_with_slash (s : string) : bool :=
  match s with
  | EmptyString => false
  | String c EmptyString => Ascii.eqb c "/"%char
  | String _ s' => ends_with_slash s'
  end.

(** [s.replace(old, new)] for a non-empty [old]: occurrences are replaced
    from left to right and do not overlap.  [skip] counts the characters
    of an occurrence that was just replaced and is still to be dropped. *)
Fixpoint replace_from (old new : string) (skip : nat) (s : string) : string :=
  match s with
  | EmptyString => EmptyString
  | String c s' =>
      match skip with
      | S k => replace_from old new k s'
      | O =>
          if startswith old s
          then new +:+ replace_from old new (String.length old - 1) s'
          else String c (replace_from old new 0 s')
      end
  end.

Definition replace (old new s : string) : string := replace_from old new 0 s.

(** [s.split(sep)] for a one-character separator; [cur] is the piece being
    read, in reverse. *)
Fixpoint split_from (sep : Ascii.ascii) (cur : string) (s : string) : list string :=
  match s with
  | EmptyString => [String.rev cur]
  | String c s' =>
      if Ascii.eqb c sep
      then String.rev cur :: split_from sep EmptyString s'
      else split_from sep (String c cur) s'
  end.

Definition split (sep : Ascii.ascii) (s : string) : list string :=
  split_from sep EmptyString s.

(** [s[:n]] *)
Definition take (n : nat) (s : string) : string := String.substring 0 n s.

(** [os.path.basename(p)]: what follows the last slash. *)
Fixpoint basename_from (cur : string) (p : string) : string :=
  match p with
  | EmptyString => String.rev cur
  | String c p' =>
      if Ascii.eqb c "/"%char then basename_from EmptyString p'
      else basename_from (String c cur) p'
  end.

Definition basename (p : string) : string := basename_from EmptyString p.

(** [os.path.join(a, b)] (POSIX): an absolute [b] discards [a]. *)
Definition path_join (a b : string) : string :=
  if startswith "/" b then b
  else if String.eqb a EmptyString || ends_with_slash a then a +:+ b
  else a +:+ "/" +:+ b.

(** [p[:p.rfind('/') + 1]], or [None] when [p] has no slash. *)
Fixpoint head_to_last_slash (p : string) : option string :=
  match p with
  | EmptyString => None
  | String c p' =>
      match head_to_last_slash p' with
      | Some h => Some (String c h)
      | None => if Ascii.eqb c "/"%char then Some (String c EmptyString) else None
      end
  end.

(** [s.rstrip('/')] *)
Fixpoint rstrip_slash (s : string) : string :=
  match s with
  | EmptyString => EmptyString
  | String c s' =>
      match rstrip_slash s' with
      | EmptyString => if Ascii.eqb c "/"%char then EmptyString else String c EmptyString
      | r => String c r
      end
  end.

(** [os.path.dirname(p)] (POSIX): what precedes the last slash, without its
    trailing slashes unless it is made of slashes only. *)
Definition dirname (p : string) : string :=
  match head_to_last_slash p with
  | None => EmptyString
  | Some head =>
      match rstrip_slash head with
      | EmptyString => head
      | stripped => stripped
      end
  end.

(** [sep.join(parts)] *)
Definition join (sep : string) (parts : list string) : string := String.concat sep parts.

(** One step of the loop of [os.path.normpath]; [new_comps] is kept in
    reverse. *)
Definition normpath_step (initial_slashes : bool) (new_comps : list string) (comp : string)
  : list string :=
  if String.eqb comp EmptyString || String.eqb comp "." then new_comps
  else if negb (String.eqb comp "..")
          || (negb initial_slashes && match new_comps with [] => true | _ => false end)
          || match new_comps with last :: _ => String.eqb last ".." | [] => false end
       then comp :: new_comps
       else match new_comps with
            | _ :: popped => popped
            | [] => []
            end.

(** [os.path.normpath(path)] (POSIX). *)
Definition normpath (path : string) : string :=
  if String.eqb path EmptyString then "."
  else
    let slashes :=
      if startswith "/" path then
        if startswith "//" path && negb (startswith "///" path) then "//" else "/"
      else EmptyString in
    let comps :=
      fold_left (normpath_step (startswith "/" path)) (split "/"%char path) [] in
    match slashes +:+ join "/" (List.rev comps) with
    | EmptyString => "."
    | normal => normal
    end.

End PyStr.

(** ** JSON values and Python dictionaries *)

Inductive json : Type :=
  | JNull
  | JBool (b : bool)
  | JNum (n : Z)
  | JStr (s : string)
  | JList (l : list json)
  | JObj (d : list (string * json)).

(** A Python [dict] with string keys, in insertion order. *)
Module Dict.

Fixpoint get {V : Type} (k : string) (d : list (string * V)) : option V :=
  match d with
  | [] => None
  | (k', v) :: d' => if String.eqb k k' then Some v else get k d'
  end.

(** [d[k] = v]: an existing key keeps its position. *)
Fixpoint set {V : Type} (k : string) (v : V) (d : list (string * V)) : list (string * V) :=
  match d with
  | [] => [(k, v)]
  | (k', v') :: d' =>
      if String.eqb k k' then (k', v) :: d' else (k', v') :: set k v d'
  end.

(** A dictionary display [{k1: v1, k2: v2, ...}]: a repeated key takes the
    later value. *)
Definition display {V : Type} (items : list (string * V)) : list (string * V) :=
  fold_left (fun d kv => set kv.1 kv.2 d) items [].

Definition keys {V : Type} (d : list (string * V)) : list string := map fst d.

End Dict.

(** Python truth value of a JSON value. *)
Definition truthy (j : json) : bool :=
  match j with
  | JNull => false
  | JBool b => b
  | JNum n => negb (Z.eqb n 0)
  | JStr s => negb (String.eqb s EmptyString)
  | JList l => match l with [] => false | _ => true end
  | JObj d => match d with [] => false | _ => true end
  end.

(** [x == s] where [x] is [None] or a JSON value and [s] is a [str]. *)
Definition eq_str (x : option json) (s : string) : bool :=
  match x with
  | Some (JStr t) => String.eqb t s
  | _ => false
  end.

(** ** The world: files, requests sent, clock reads *)

Inductive fcontent : Type :=
  | FBytes (b : string)      (* a file written with [f.write(response.content)] *)
  | FJson (j : json).        (* a file written with [json.dump] *)

Inductive request : Type :=
  | ReqRelease (url : string)   (* [requests.get(api_url, timeout=30)], releases/latest *)
  | ReqCommit (url : string)    (* [requests.get(api_url, timeout=30)], commits/<branch> *)
  | ReqFile (url : string).     (* [requests.get(url, timeout=60)], file bytes *)

Record asset : Type := { name : string; browser_download_url : string }.
Record release : Type := { tag_name : string; assets : list asset }.
Record commit : Type := { sha : string }.

(** The upstream state: what each request answers.  [None] is any
  [requests.RequestException] (no network, non-2xx status, no release). *)
Record upstream : Type := {
  release_at : string -> option release;
  commit_at : string -> option commit;
  content_at : string -> option string
}.

Record world : Type := {
  fs : gmap string fcontent;
  log : list request;
  ticks : nat
}.

Definition set_fs (f : gmap string fcontent) (w : world) : world :=
  {| fs := f; log := log w; ticks := ticks w |}.
Definition add_log (r : request) (w : world) : world :=
  {| fs := fs w; log := log w ++ [r]; ticks := ticks w |}.
Definition tick (w : world) : world :=
  {| fs := fs w; log := log w; ticks := S (ticks w) |}.

Inductive exn : Type :=
  | JSONDecodeError
  | UnicodeDecodeError
  | AttributeError
  | KeyError
  | FileNotFoundError
  | IsADirectoryError
  | OSError.                 (* any other error of the operating system *)

Inductive result (A : Type) : Type :=
  | Ret (a : A)
  | Raise (e : exn).
Arguments Ret {A} a.
Arguments Raise {A} e.

(** Computations that read and change the world and may raise. *)
Definition M (A : Type) : Type := world -> result A * world.

Definition ret {A} (a : A) : M A := fun w => (Ret a, w).
Definition raise {A} (e : exn) : M A := fun w => (Raise e, w).
Definition bind {A B} (m : M A) (k : A -> M B) : M B :=
  fun w => match m w with
           | (Ret a, w') => k a w'
           | (Raise e, w') => (Raise e, w')
           end.

Notation "'let*' x ':=' m 'in' k" := (bind m (fun x => k))
  (at level 10, x name, m at level 100, k at level 200).

Definition lift {A} (r : result A) : M A := fun w => (r, w).

(** The machine the updater runs on.  [canon p] is the file that the path
    [p] names: two paths name one file exactly when their images are equal
    ([fs] is keyed by these images).  The three error fields give the
    [OSError], if any, that the call raises for a path; for [open] to read,
    an error other than [FileNotFoundError], which is the absence of the
    file from [fs].  [text_decodes b] tells whether the bytes [b] decode in
    the encoding of [open(..., 'r')]. *)
Record host : Type := {
  canon : string -> string;
  makedirs_error : string -> option exn;
  open_write_error : string -> option exn;
  open_read_error : string -> option exn;
  text_decodes : string -> bool
}.

(** How [os.makedirs(path, exist_ok=True)] ends: the empty path cannot be
    created. *)
Definition makedirs_outcome (os : host) (path : string) : option exn :=
  if String.eqb path EmptyString then Some FileNotFoundError
  else makedirs_error os path.

(** How [open(path, 'w')] (or ['wb']) ends: the empty path cannot be
    opened; a path with a trailing slash names a directory, so that opening
    it fails even when the machine has no other objection. *)
Definition open_write_outcome (os : host) (path : string) : option exn :=
  if String.eqb path EmptyString then Some FileNotFoundError
  else match open_write_error os path with
       | Some e => Some e
       | None => if PyStr.ends_with_slash path then Some IsADirectoryError else None
       end.

(** [os.makedirs(path, exist_ok=True)] *)
Definition makedirs (os : host) (path : string) : M unit :=
  fun w => match makedirs_outcome os path with
           | Some e => (Raise e, w)
           | None => (Ret tt, w)
           end.

(** [with open(path, 'w') as f: ...write...] (also ['wb']). *)
Definition write_file (os : host) (path : string) (c : fcontent) : M unit :=
  fun w => match open_write_outcome os path with
           | Some e => (Raise e, w)
           | None => (Ret tt, set_fs (<[canon os path := c]> (fs w)) w)
           end.

(** What [open(path, 'r')] (or ['rb']) finds on a disk: [Ret None] is the
    [FileNotFoundError] that both callers catch. *)
Definition read_lookup (os : host) (path : string) (m : gmap string fcontent)
  : result (option fcontent) :=
  if String.eqb path EmptyString then Ret None
  else match open_read_error os path with
       | Some e => Raise e
       | None => Ret (m !! canon os path)
       end.

Definition read_file (os : host) (path : string) : M (option fcontent) :=
  fun w => (read_lookup os path (fs w), w).

(** ** The configuration ([components_config.json]) *)

Record file_info : Type := { source : string; destination : string }.

Record component_config : Type := {
  source_url : string;
  files : list file_info;
  use_releases : option bool     (* [None]: the key is absent *)
}.

(** What [latest_info] holds once the kind of revision is settled: after
  line 146 [use_releases] is true exactly when it is a release. *)
Inductive latest_info : Type :=
  | Release (r : release)
  | Commit (c : commit).

(** One entry of the dictionary returned by [check_for_updates]. *)
Record update_entry : Type := { current : json; latest : string; url : string }.

Definition retries (branch : string) : nat :=
  if String.eqb branch "master" then 1 else 0.

Section ComponentUpdater.

(** [self.config], the upstream state, and the library functions the
    class calls. *)
Variable os : host.
Variable config : list (string * component_config).
Variable up : upstream.
Variable json_loads : string -> option json.   (* [None]: [JSONDecodeError] *)
Variable json_dumps : json -> string.
Variable sha256_hexdigest : string -> string.
Variable isoformat_now : nat -> string.        (* the clock at its n-th read *)

(** [requests.get(...)] followed by [raise_for_status()] and the decoding
    of the answer; [None] stands for the [RequestException] that each
    caller catches. *)
Definition get_release (api_url : string) : M (option release) :=
  fun w => (Ret (release_at up api_url), add_log (ReqRelease api_url) w).
Definition get_commit (api_url : string) : M (option commit) :=
  fun w => (Ret (commit_at up api_url), add_log (ReqCommit api_url) w).
Definition get_content (url : string) : M (option string) :=
  fun w => (Ret (content_at up url), add_log (ReqFile url) w).

Definition datetime_now : M string :=
  fun w => (Ret (isoformat_now (ticks w)), tick w).

Definition file_bytes (c : fcontent) : string :=
  match c with
  | FBytes b => b
  | FJson j => json_dumps j
  end.

Definition version_file (component_name : string) : string :=
  PyStr.path_join component_name "version.json".

(** Lines 34-40. *)
Definition _save_version_info (component_name : string) (version_info : json) : M unit :=
  let* _ := makedirs os component_name in
  write_file os (version_file component_name) (FJson version_info).

(** Lines 42-49. *)
Definition _get_current_version (component_name : string) : M (option json) :=
  let* c := read_file os (version_file component_name) in
  match c with
  | None => ret None
  | Some (FJson j) => ret (Some j)
  | Some (FBytes b) =>
      if text_decodes os b then
        match json_loads b with
        | Some j => ret (Some j)
        | None => raise JSONDecodeError
        end
      else raise UnicodeDecodeError
  end.

(** [repo_url.replace("https://github.com/", "").split("/")] *)
Definition repo_parts (repo_url : string) : list string :=
  PyStr.split "/"%char (PyStr.replace "https://github.com/" EmptyString repo_url).

Definition release_api_url (owner repo : string) : string :=
  "https://api.github.com/repos/" +:+ owner +:+ "/" +:+ repo +:+ "/releases/latest".
Definition commit_api_url (owner repo branch : string) : string :=
  "https://api.github.com/repos/" +:+ owner +:+ "/" +:+ repo +:+ "/commits/" +:+ branch.

(** Lines 51-68. *)
Definition _get_latest_release (repo_url : string) : M (option release) :=
  match repo_parts repo_url with
  | owner :: repo :: _ => get_release (release_api_url owner repo)
  | _ => ret None
  end.

(** Lines 70-88: the function calls itself with "main" when the lookup of
    "master" fails. *)
Equations _get_latest_commit (repo_url branch : string) (w : world)
  : result (option commit) * world by wf (retries branch) lt :=
  _get_latest_commit repo_url branch w with repo_parts repo_url := {
    | owner :: repo :: _ with get_commit (commit_api_url owner repo branch) w := {
        | (Ret (Some c), w1) := (Ret (Some c), w1);
        | (Ret None, w1) with decide (branch = "master") := {
            | left _ := _get_latest_commit repo_url "main" w1;
            | right _ := (Ret None, w1) };
        | (Raise e, w1) := (Raise e, w1) };
    | _ := (Ret None, w) }.

(** Lines 90-104. *)
Definition _download_file (url destination : string) : M bool :=
  let* r := get_content url in
  match r with
  | Some content =>
      let* _ := makedirs os (PyStr.dirname destination) in
      let* _ := write_file os destination (FBytes content) in
      ret true
  | None => ret false
  end.

(** Lines 106-115. *)
Definition _calculate_file_hash (file_path : string) : M string :=
  let* c := read_file os file_path in
  match c with
  | Some c => ret (sha256_hexdigest (file_bytes c))
  | None => ret EmptyString
  end.

(** Lines 150 and 153. *)
Definition latest_version (latest_info : latest_info) : string :=
  match latest_info with
  | Release r => tag_name r
  | Commit c => PyStr.take 8 (sha c)
  end.

(** The key read at lines 151 and 154, and written at line 196. *)
Definition version_key (latest_info : latest_info) : string :=
  match latest_info with
  | Release _ => "version"
  | Commit _ => "commit_hash"
  end.

(** [current_version.get(key) if current_version else None]; a JSON null
  under the key is Python's [None] as well. *)
Definition current_hash (current_version : option json) (key : string) : result (option json) :=
  match current_version with
  | None => Ret None
  | Some j =>
      if truthy j then
        match j with
        | JObj d => Ret (Dict.get key d)
        | _ => Raise AttributeError
        end
      else Ret None
  end.

(** [current or 'N/A'] *)
Definition or_na (current : option json) : json :=
  match current with
  | Some j => if truthy j then j else JStr "N/A"
  | None => JStr "N/A"
  end.

Definition raw_url (repo_url rev source_path : string) : string :=
  repo_url +:+ "/raw/" +:+ rev +:+ "/" +:+ source_path.

(** Lines 172-176: the first asset with the wanted name ends the loop. *)
Fixpoint find_asset_url (wanted : string) (assets : list asset) : option string :=
  match assets with
  | [] => None
  | a :: rest =>
      if String.eqb (name a) wanted then Some (browser_download_url a)
      else find_asset_url wanted rest
  end.

(** Lines 169-183.  [not download_url] holds for [None] and for the empty
    string. *)
Definition download_url (repo_url : string) (latest_info : latest_info)
    (source_path : string) : string :=
  match latest_info with
  | Release r =>
      match find_asset_url (PyStr.basename source_path) (assets r) with
      | Some u =>
          if String.eqb u EmptyString
          then raw_url repo_url (tag_name r) source_path
          else u
      | None => raw_url repo_url (tag_name r) source_path
      end
  | Commit c => raw_url repo_url (sha c) source_path
  end.

(** Lines 164-189: [None] is the [return False] of line 189. *)
Fixpoint download_files (component_name repo_url : string) (latest_info : latest_info)
    (files_to_download : list file_info) (updated_files : list string)
  : M (option (list string)) :=
  match files_to_download with
  | [] => ret (Some updated_files)
  | file_info :: rest =>
      let source_path := source file_info in
      let dest_path := PyStr.path_join component_name (destination file_info) in
      let* ok := _download_file (download_url repo_url latest_info source_path) dest_path in
      if ok
      then download_files component_name repo_url latest_info rest (updated_files ++ [dest_path])
      else ret None
  end.

(** Line 198: [{f: self._calculate_file_hash(f) for f in updated_files}]. *)
Fixpoint file_hashes (updated_files : list string) (acc : list (string * json))
  : M (list (string * json)) :=
  match updated_files with
  | [] => ret acc
  | f :: rest =>
      let* h := _calculate_file_hash f in
      file_hashes rest (Dict.set f (JStr h) acc)
  end.

(** Lines 192-199. *)
Definition version_info (repo_url : string) (latest_info : latest_info) (now : string)
    (updated_files : list string) (hashes : list (string * json)) : json :=
  JObj (Dict.display
    [ ("version", JStr (latest_version latest_info));
      ("source_url", JStr repo_url);
      ("last_updated", JStr now);
      (version_key latest_info, JStr (latest_version latest_info));
      ("files", JList (JStr <$> updated_files));
      ("file_hashes", JObj hashes) ]).

(** Lines 163-203: download every file, then write the version record. *)
Definition install (component_name repo_url : string)
  (files_to_download : list file_info) (latest_info : latest_info) : M bool :=
  let* updated := download_files component_name repo_url latest_info files_to_download [] in
  match updated with
  | None => ret false
  | Some updated_files =>
      let* now := datetime_now in
      let* hashes := file_hashes updated_files [] in
      let* _ := _save_version_info component_name
                  (version_info repo_url latest_info now updated_files hashes) in
      ret true
  end.

(** Lines 148-203, once [latest_info] is known. *)
Definition apply_latest (component_name repo_url : string)
  (files_to_download : list file_info) (current_version : option json)
  (latest_info : latest_info) : M bool :=
  let* current_hash := lift (current_hash current_version (version_key latest_info)) in
  if eq_str current_hash (latest_version latest_info) then ret true
  else install component_name repo_url files_to_download latest_info.

(** Lines 135-142: a release when releases are wanted and one is found,
  the latest commit otherwise. *)
Definition resolve_latest (repo_url : string) (use_releases : bool) : M (option latest_info) :=
  let* latest_info :=
    (if use_releases
     then let* r := _get_latest_release repo_url in ret (Release <$> r)
     else ret None) in
  match latest_info with
  | Some li => ret (Some li)
  | None =>
      let* c := _get_latest_commit repo_url "master" in
      ret (Commit <$> c)
  end.

(** Lines 117-203. *)
Definition update_component (component_name : string) : M bool :=
  match Dict.get component_name config with
  | None => ret false
  | Some component_config =>
      let repo_url := source_url component_config in
      let files_to_download := files component_config in
      let* current_version := _get_current_version component_name in
      let use_releases := default true (use_releases component_config) in
      let* latest_info := resolve_latest repo_url use_releases in
      match latest_info with
      | None => ret false
      | Some latest_info =>
          apply_latest component_name repo_url files_to_download current_version latest_info
      end
  end.

(** Lines 205-210. *)
Fixpoint update_each (names : list string) (results : list (string * bool))
  : M (list (string * bool)) :=
  match names with
  | [] => ret results
  | component_name :: rest =>
      let* r := update_component component_name in
      update_each rest (Dict.set component_name r results)
  end.

Definition update_all_components : M (list (string * bool)) :=
  update_each (Dict.keys config) [].

(** Lines 217-244, the body of the loop of [check_for_updates]. *)
Definition check_component (component_name : string)
    (updates_available : list (string * update_entry))
  : M (list (string * update_entry)) :=
  match Dict.get component_name config with
  | None => raise KeyError
  | Some component_config =>
      let repo_url := source_url component_config in
      let* current_version := _get_current_version component_name in
      let use_releases := default true (use_releases component_config) in
      let* latest_info :=
        (if use_releases
         then
           let* r := _get_latest_release repo_url in
           match r with
           | Some r => ret (Some (Release r))
           | None =>
               let* c := _get_latest_commit repo_url "master" in
               ret (Commit <$> c)
           end
         else
           let* c := _get_latest_commit repo_url "master" in
           ret (Commit <$> c)) in
      match latest_info with
      | Some latest_info =>
          let* current := lift (current_hash current_version (version_key latest_info)) in
          if negb (eq_str current (latest_version latest_info))
          then ret (Dict.set component_name
                      {| current := or_na current;
                         latest := latest_version latest_info;
                         url := repo_url |} updates_available)
          else ret updates_available
      | None => ret updates_available
      end
  end.

(** Lines 212-246. *)
Fixpoint check_each (names : list string) (updates_available : list (string * update_entry))
  : M (list (string * update_entry)) :=
  match names with
  | [] => ret updates_available
  | component_name :: rest =>
      let* updates_available := check_component component_name updates_available in
      check_each rest updates_available
  end.

Definition check_for_updates : M (list (string * update_entry)) :=
  check_each (Dict.keys config) [].

End ComponentUpdater.

(** ** Describing runs *)

(** The world after some more requests were sent. *)
Definition add_logs (l : list request) (w : world) : world :=
  {| fs := fs w; log := log w ++ l; ticks := ticks w |}.

Definition is_download (r : request) : bool :=
  match r with
  | ReqFile _ => true
  | _ => false
  end.

(** The answer of [_get_latest_release] and the requests it sends. *)
Definition release_of (up : upstream) (repo_url : string) : option release :=
  match repo_parts repo_url with
  | owner :: repo :: _ => release_at up (release_api_url owner repo)
  | _ => None
  end.

Definition release_reqs (repo_url : string) : list request :=
  match repo_parts repo_url with
  | owner :: repo :: _ => [ReqRelease (release_api_url owner repo)]
  | _ => []
  end.

(** The answer of [_get_latest_commit] and the requests it sends. *)
Definition commit_of (up : upstream) (repo_url branch : string) : option commit :=
  match repo_parts repo_url with
  | owner :: repo :: _ =>
      match commit_at up (commit_api_url owner repo branch) with
      | Some c => Some c
      | None =>
          if decide (branch = "master")
          then commit_at up (commit_api_url owner repo "main")
          else None
      end
  | _ => None
  end.

Definition commit_reqs (up : upstream) (repo_url branch : string) : list request :=
  match repo_parts repo_url with
  | owner :: repo :: _ =>
      ReqCommit (commit_api_url owner repo branch) ::
      match commit_at up (commit_api_url owner repo branch) with
      | Some _ => []
      | None =>
          if decide (branch = "master")
          then [ReqCommit (commit_api_url owner repo "main")]
          else []
      end
  | _ => []
  end.

(** The answer of [resolve_latest] and the requests it sends. *)
Definition latest_of (up : upstream) (repo_url : string) (use_releases : bool)
  : option latest_info :=
  match (if use_releases then release_of up repo_url else None) with
  | Some r => Some (Release r)
  | None => Commit <$> commit_of up repo_url "master"
  end.

Definition latest_reqs (up : upstream) (repo_url : string) (use_releases : bool)
  : list request :=
  if use_releases then
    release_reqs repo_url ++
    match release_of up repo_url with
    | Some _ => []
    | None => commit_reqs up repo_url "master"
    end
  else commit_reqs up repo_url "master".

(** What [json.load] makes of the content of a file opened as text. *)
Definition decode_record (os : host) (json_loads : string -> option json)
    (c : option fcontent) : result (option json) :=
  match c with
  | None => Ret None
  | Some (FJson j) => Ret (Some j)
  | Some (FBytes b) =>
      if text_decodes os b then
        match json_loads b with
        | Some j => Ret (Some j)
        | None => Raise JSONDecodeError
        end
      else Raise UnicodeDecodeError
  end.

(** What [_get_current_version] makes of the file at [path] on a disk. *)
Definition read_version (os : host) (json_loads : string -> option json)
    (path : string) (m : gmap string fcontent) : result (option json) :=
  match read_lookup os path m with
  | Ret c => decode_record os json_loads c
  | Raise e => Raise e
  end.

(** Destination path and download URL of one configured file. *)
Definition dest_path (component_name : string) (f : file_info) : string :=
  PyStr.path_join component_name (destination f).

Definition file_url (repo_url : string) (li : latest_info) (f : file_info) : string :=
  download_url repo_url li (source f).

(** The [OSError], if any, of lines 96-97 for a destination, and of lines
    37-39 for a component. *)
Definition download_error (os : host) (dest : string) : option exn :=
  match makedirs_outcome os (PyStr.dirname dest) with
  | Some e => Some e
  | None => open_write_outcome os dest
  end.

Definition save_error (os : host) (component_name : string) : option exn :=
  match makedirs_outcome os component_name with
  | Some e => Some e
  | None => open_write_outcome os (version_file component_name)
  end.

(** Whether a configured file is served by the upstream and written to its
    destination. *)
Definition fetched (os : host) (up : upstream) (component_name repo_url : string)
    (li : latest_info) (f : file_info) : bool :=
  match content_at up (file_url repo_url li f),
        download_error os (dest_path component_name f) with
  | Some _, None => true
  | _, _ => false
  end.

(** The files the loop of lines 165-189 asks for: all up to and including
    the first that is not fetched. *)
Fixpoint attempted (os : host) (up : upstream) (component_name repo_url : string)
    (li : latest_info) (fl : list file_info) : list file_info :=
  match fl with
  | [] => []
  | f :: rest =>
      f :: (if fetched os up component_name repo_url li f
            then attempted os up component_name repo_url li rest else [])
  end.

(** The files on disk after the downloads of [fl] that are fetched. *)
Definition store_all (os : host) (up : upstream) (component_name repo_url : string)
    (li : latest_info) (fl : list file_info) (m : gmap string fcontent)
  : gmap string fcontent :=
  fold_left
    (fun m f =>
       match content_at up (file_url repo_url li f),
             download_error os (dest_path component_name f) with
       | Some b, None => <[canon os (dest_path component_name f) := FBytes b]> m
       | _, _ => m
       end) fl m.

(** How the loop of lines 165-189 ends: with the list of the files written,
    with the [return False] of line 189 ([None]), or with the error of a
    write. *)
Fixpoint downloads_result (os : host) (up : upstream) (component_name repo_url : string)
    (li : latest_info) (fl : list file_info) (updated_files : list string)
  : result (option (list string)) :=
  match fl with
  | [] => Ret (Some updated_files)
  | f :: rest =>
      match content_at up (file_url repo_url li f) with
      | None => Ret None
      | Some _ =>
          match download_error os (dest_path component_name f) with
          | Some e => Raise e
          | None =>
              downloads_result os up component_name repo_url li rest
                (updated_files ++ [dest_path component_name f])
          end
      end
  end.

(** The world when the download loop stops. *)
Definition after_downloads (os : host) (up : upstream) (component_name repo_url : string)
    (li : latest_info) (fl : list file_info) (w : world) : world :=
  {| fs := store_all os up component_name repo_url li
             (attempted os up component_name repo_url li fl) (fs w);
     log := log w ++ map (fun f => ReqFile (file_url repo_url li f))
                       (attempted os up component_name repo_url li fl);
     ticks := ticks w |}.

(** The hash that [_calculate_file_hash] gives for a path on a given disk. *)
Definition hash_of (os : host) (json_dumps : json -> string)
    (sha256_hexdigest : string -> string) (m : gmap string fcontent) (f : string)
  : result string :=
  match read_lookup os f m with
  | Ret (Some c) => Ret (sha256_hexdigest (file_bytes json_dumps c))
  | Ret None => Ret EmptyString
  | Raise e => Raise e
  end.

(** The hashes gathered by [file_hashes] on a given disk. *)
Fixpoint hashes_of (os : host) (json_dumps : json -> string)
    (sha256_hexdigest : string -> string)
    (m : gmap string fcontent) (fl : list string) (acc : list (string * json))
  : result (list (string * json)) :=
  match fl with
  | [] => Ret acc
  | f :: rest =>
      match hash_of os json_dumps sha256_hexdigest m f with
      | Ret h => hashes_of os json_dumps sha256_hexdigest m rest (Dict.set f (JStr h) acc)
      | Raise e => Raise e
      end
  end.

(** The world after lines 191-201, when every download succeeded and the
    record, with the hashes [hashes], was written. *)
Definition after_install (os : host) (up : upstream) (isoformat_now : nat -> string)
    (component_name repo_url : string) (li : latest_info) (fl : list file_info)
    (hashes : list (string * json)) (w : world) : world :=
  let w2 := after_downloads os up component_name repo_url li fl w in
  let updated_files := map (dest_path component_name) fl in
  {| fs := <[canon os (version_file component_name) :=
               FJson (version_info repo_url li (isoformat_now (ticks w)) updated_files hashes)]>
             (fs w2);
     log := log w2;
     ticks := S (ticks w) |}.

(** How lines 163-203 end, and in which world. *)
Definition install_result (os : host) (up : upstream) (json_dumps : json -> string)
    (sha256_hexdigest : string -> string) (isoformat_now : nat -> string)
    (component_name repo_url : string) (li : latest_info) (fl : list file_info)
    (w : world) : result bool * world :=
  let w2 := after_downloads os up component_name repo_url li fl w in
  match downloads_result os up component_name repo_url li fl [] with
  | Raise e => (Raise e, w2)
  | Ret None => (Ret false, w2)
  | Ret (Some updated_files) =>
      match hashes_of os json_dumps sha256_hexdigest (fs w2) updated_files [] with
      | Raise e => (Raise e, tick w2)
      | Ret hashes =>
          match save_error os component_name with
          | Some e => (Raise e, tick w2)
          | None =>
              (Ret true,
               after_install os up isoformat_now component_name repo_url li fl hashes w)
          end
      end
  end.

(** [update_all_components] component by component: every update returns,
    whatever its boolean, and the next one starts where it stopped. *)
Inductive each_returns (update : string -> M bool)
  : list string -> world -> list bool -> world -> Prop :=
| each_nil w : each_returns update [] w [] w
| each_cons n ns w b w1 bs w' :
    update n w = (Ret b, w1) ->
    each_returns update ns w1 bs w' ->
    each_returns update (n :: ns) w (b :: bs) w'.

(** ** Example inputs *)

Module Ex.

(** Four components: "broken" has a source that is no repository URL,
    "card" follows releases, "chart" follows commits, "plain" asks for
    releases and has none. *)
Definition config : list (string * component_config) :=
  [ ("broken", {| source_url := "nowhere";
                  files := [ {| source := "x.js"; destination := "x.js" |} ];
                  use_releases := None |});
    ("card", {| source_url := "https://github.com/o/card";
                files := [ {| source := "dist/card.js"; destination := "card.js" |};
                           {| source := "dist/card.css"; destination := "card.css" |} ];
                use_releases := None |});
    ("chart", {| source_url := "https://github.com/o/chart";
                 files := [ {| source := "a.js"; destination := "a.js" |};
                            {| source := "b.js"; destination := "b.js" |};
                            {| source := "c.js"; destination := "c.js" |} ];
                 use_releases := Some false |});
    ("plain", {| source_url := "https://github.com/o/plain";
                 files := [ {| source := "p.js"; destination := "p.js" |} ];
                 use_releases := Some true |}) ].


Definition card_release : release :=
  {| tag_name := "v2.0";
     assets := [ {| name := "readme.txt"; browser_download_url := "https://dl.example/readme.txt" |};
                 {| name := "card.js"; browser_download_url := "https://dl.example/card.js" |} ] |}.

(** A release whose asset for "card.js" has an empty download URL. *)
Definition odd_release : release :=
  {| tag_name := "v1";
     assets := [ {| name := "card.js"; browser_download_url := EmptyString |} ] |}.

(** "card" has a release; "chart" has a branch "main" but no "master";
    "plain" has no release and a branch "master"; every file is served but
    "b.js" of "chart". *)
Definition up : upstream :=
  {| release_at := fun u =>
       if String.eqb u "https://api.github.com/repos/o/card/releases/latest"
       then Some card_release else None;
     commit_at := fun u =>
       if String.eqb u "https://api.github.com/repos/o/chart/commits/main"
       then Some {| sha := "a1b2c3d4e5f60718" |}
       else if String.eqb u "https://api.github.com/repos/o/plain/commits/master"
       then Some {| sha := "0123456789abcdef" |}
       else None;
     content_at := fun u =>
       if String.eqb u "https://github.com/o/chart/raw/a1b2c3d4e5f60718/b.js"
       then None else Some ("content of " +:+ u) |}.

(** An upstream that answers nothing. *)
Definition down : upstream :=
  {| release_at := fun _ => None; commit_at := fun _ => None; content_at := fun _ => None |}.

(** Whether a byte occurs in a file. *)
Fixpoint has_byte (c : Ascii.ascii) (b : string) : bool :=
  match b with
  | EmptyString => false
  | String a b' => Ascii.eqb a c || has_byte c b'
  end.

(** A machine on which two paths name one file when [os.path.normpath]
    makes them equal (no symbolic links, relative paths from one working
    directory), every directory can be created and every file opened, and a
    file is valid text unless it holds the byte 255, which no UTF-8 text
    holds. *)
Definition os : host :=
  {| canon := PyStr.normpath;
     makedirs_error := fun _ => None;
     open_write_error := fun _ => None;
     open_read_error := fun _ => None;
     text_decodes := fun b => negb (has_byte "255"%char b) |}.


Definition json_loads (b : string) : option json := None.
Definition json_dumps (j : json) : string := "{}".
Definition sha256_hexdigest (b : string) : string := "sha256 of " +:+ b.
Definition isoformat_now (n : nat) : string :=
  if Nat.eqb n 0 then "2024-05-01T10:00:00" else "2024-05-02T10:00:00".

(** Nothing on disk. *)
Definition w0 : world := {| fs := ∅; log := []; ticks := 0 |}.

(** "chart" was installed at an older commit, "card" is at "v2.0". *)
Definition w_installed : world :=
  {| fs := {[ "chart/version.json" := FJson (JObj [("version", JStr "00000000");
                                                   ("commit_hash", JStr "00000000")]);
              "card/version.json" := FJson (JObj [("version", JStr "v2.0")]) ]};
     log := [];
     ticks := 0 |}.

Definition update_component : string -> M bool :=
  update_component os config up json_loads json_dumps sha256_hexdigest isoformat_now.

Definition card_cc : component_config :=
  {| source_url := "https://github.com/o/card";
     files := [ {| source := "dist/card.js"; destination := "card.js" |};
                {| source := "dist/card.css"; destination := "card.css" |} ];
     use_releases := None |}.

Definition chart_cc : component_config :=
  {| source_url := "https://github.com/o/chart";
     files := [ {| source := "a.js"; destination := "a.js" |};
                {| source := "b.js"; destination := "b.js" |};
                {| source := "c.js"; destination := "c.js" |} ];
     use_releases := Some false |}.

Definition plain_cc : component_config :=
  {| source_url := "https://github.com/o/plain";
     files := [ {| source := "p.js"; destination := "p.js" |} ];
     use_releases := Some true |}.

Definition chart_commit : commit := {| sha := "a1b2c3d4e5f60718" |}.

End Ex.

(** ** More vocabulary *)

(** How many times a character occurs in a string. *)
Fixpoint count_char (c : Ascii.ascii) (s : string) : nat :=
  match s with
  | EmptyString => 0
  | String a s' => (if Ascii.eqb a c then 1 else 0) + count_char c s'
  end.

(** What one turn of the loop of [check_for_updates] does to the entry of a
    component in the report. *)
Definition entry_after (os : host) (config : list (string * component_config)) (up : upstream)
    (json_loads : string -> option json)
    (name : string) (w : world) (before : option update_entry)
  : option update_entry :=
  match Dict.get name config with
  | None => before
  | Some cc =>
      match read_version os json_loads (version_file name) (fs w),
            latest_of up (source_url cc) (default true (use_releases cc)) with
      | Ret cur, Some li =>
          match current_hash cur (version_key li) with
          | Ret h =>
              if eq_str h (latest_version li) then before
              else Some {| current := or_na h; latest := latest_version li;
                           url := source_url cc |}
          | Raise _ => before
          end
      | _, _ => before
      end
  end.

(** ** The command line ([main], lines 248-278) *)

(** The parsed arguments; the configuration file named by [--config] has
    been loaded into [config].  Strings hold the UTF-8 bytes of the text. *)
Record args : Type := {
  check : bool;                 (* [--check] *)
  component : option string     (* [--component NAME]; [None] when absent *)
}.

(** [if args.component]: given and not empty. *)
Definition given (o : option string) : bool :=
  match o with
  | Some n => negb (String.eqb n EmptyString)
  | None => false
  end.

(** Line 274: the names whose update returned [False]. *)
Definition failed_names (results : list (string * bool)) : list string :=
  map fst (List.filter (fun r => negb (snd r)) results).

Section CommandLine.

Variable os : host.
Variable config : list (string * component_config).
Variable up : upstream.
Variable json_loads : string -> option json.
Variable json_dumps : json -> string.
Variable sha256_hexdigest : string -> string.
Variable isoformat_now : nat -> string.
Variable py_str : json -> string.      (* [str(x)] for a value that is no string *)

(** How an f-string shows the "current" field. *)
Definition show_current (j : json) : string :=
  match j with
  | JStr s => s
  | _ => py_str j
  end.

(** Line 267. *)
Definition update_line (entry : string * update_entry) : string :=
  "  " +:+ fst entry +:+ ": " +:+ show_current (current (snd entry))
  +:+ " → " +:+ latest (snd entry).

(** Lines 262-278; the value returned is the list of lines printed. *)
Definition main (a : args) : M (list string) :=
  if check a then
    let* updates := check_for_updates os config up json_loads in
    match updates with
    | [] => ret ["Todos los componentes están actualizados"]
    | _ => ret ("Actualizaciones disponibles:" :: map update_line updates)
    end
  else if given (component a) then
    let* _ := update_component os config up json_loads json_dumps sha256_hexdigest
                isoformat_now (default EmptyString (component a)) in
    ret []
  else
    let* results := update_all_components os config up json_loads json_dumps
                      sha256_hexdigest isoformat_now in
    match failed_names results with
    | [] => ret ["✅ Todos los componentes actualizados exitosamente"]
    | failed => ret ["❌ Falló la actualización de: " +:+ String.concat ", " failed]
    end.

End CommandLine.

(** ** More example inputs *)

Module ExMore.

(** "card" holds bytes that are not JSON, "chart" holds a JSON list,
    "plain" holds bytes that are not text. *)
Definition w_damaged : world :=
  {| fs := {[ "card/version.json" := FBytes "not json";
              "chart/version.json" := FJson (JList [JStr "a1b2c3d4"]);
              "plain/version.json" := FBytes (String "255"%char (String "254"%char "{}")) ]};
     log := [];
     ticks := 0 |}.

(** "plain" was installed from a release "v1.0" that is gone since. *)
Definition w_plain_release : world :=
  {| fs := {[ "plain/version.json" :=
                FJson (version_info "https://github.com/o/plain"
                         (Release {| tag_name := "v1.0"; assets := [] |})
                         "2024-04-01T09:00:00" ["plain/p.js"]
                         [("plain/p.js", JStr "sha256 of old")]);
              "notes.txt" := FBytes "keep me" ]};
     log := [];
     ticks := 0 |}.

(** "chart" is installed at a commit that shares eight characters with the
    latest one. *)
Definition w_chart_same_prefix : world :=
  {| fs := {[ "chart/version.json" :=
                FJson (JObj [("version", JStr "a1b2c3d4");
                             ("commit_hash", JStr "a1b2c3d4")]) ]};
     log := [];
     ticks := 0 |}.

Definition old_chart_commit : commit := {| sha := "a1b2c3d4ffffffff" |}.

(** "chart" with a first file whose destination is another spelling of
    [version.json]. *)
Definition config_alias_dot : list (string * component_config) :=
  [ ("chart", {| source_url := "https://github.com/o/chart";
                 files := [ {| source := "a.js"; destination := "./version.json" |};
                            {| source := "b.js"; destination := "b.js" |} ];
                 use_releases := Some false |}) ].

(** Components that cannot be written: one with an empty name, one whose
    file has an empty destination, one with an empty name whose file has no
    directory part. *)
Definition config_unwritable : list (string * component_config) :=
  [ (EmptyString, {| source_url := "https://github.com/o/plain";
                     files := [ {| source := "p.js"; destination := "sub/p.js" |} ];
                     use_releases := Some false |});
    ("nodest", {| source_url := "https://github.com/o/plain";
                  files := [ {| source := "p.js"; destination := EmptyString |} ];
                  use_releases := Some false |}) ].

Definition config_flat : list (string * component_config) :=
  [ (EmptyString, {| source_url := "https://github.com/o/plain";
                     files := [ {| source := "p.js"; destination := "p.js" |} ];
                     use_releases := Some false |}) ].

Definition py_str (j : json) : string := "?".

Definition main : args -> M (list string) :=
  main Ex.os Ex.config Ex.up Ex.json_loads Ex.json_dumps Ex.sha256_hexdigest
    Ex.isoformat_now py_str.

End ExMore.

(** ** World and monad lemmas *)

Lemma world_eq (w1 w2 : world) :
  fs w1 = fs w2 -> log w1 = log w2 -> ticks w1 = ticks w2 -> w1 = w2.
Proof. destruct w1, w2; simpl; intros; subst; reflexivity. Qed.

Lemma add_logs_nil w : add_logs [] w = w.
Proof. apply world_eq; simpl; auto using app_nil_r. Qed.

Lemma add_logs_app l1 l2 w : add_logs l2 (add_logs l1 w) = add_logs (l1 ++ l2) w.
Proof. apply world_eq; simpl; auto using app_assoc. Qed.

Lemma add_log_logs r w : add_log r w = add_logs [r] w.
Proof. reflexivity. Qed.

Lemma bind_ret_l {A B} (a : A) (k : A -> M B) w : bind (ret a) k w = k a w.
Proof. reflexivity. Qed.

Lemma bind_run {A B} (m : M A) (k : A -> M B) w a w' :
  m w = (Ret a, w') -> bind m k w = k a w'.
Proof. unfold bind; intros ->; reflexivity. Qed.

Lemma bind_raise {A B} (m : M A) (k : A -> M B) w e w' :
  m w = (Raise e, w') -> bind m k w = (Raise e, w').
Proof. unfold bind; intros ->; reflexivity. Qed.

(** ** Dictionaries *)

Lemma dict_get_set_eq {V} (k : string) (v : V) d : Dict.get k (Dict.set k v d) = Some v.
Proof.
  induction d as [|[k' v'] d IH]; simpl.
  - rewrite String.eqb_refl. reflexivity.
  - destruct (String.eqb k k') eqn:E; simpl; rewrite E; auto.
Qed.

Lemma dict_get_set_ne {V} (k k' : string) (v : V) d :
  k <> k' -> Dict.get k (Dict.set k' v d) = Dict.get k d.
Proof.
  intros Hne. induction d as [|[k2 v2] d IH]; simpl.
  - apply String.eqb_neq in Hne. rewrite Hne. reflexivity.
  - destruct (String.eqb k' k2) eqn:E; simpl.
    + apply String.eqb_eq in E. subst k2.
      apply String.eqb_neq in Hne. rewrite Hne. reflexivity.
    + rewrite IH. reflexivity.
Qed.

Lemma dict_get_keys {V} (k : string) (v : V) d :
  Dict.get k d = Some v -> k ∈ Dict.keys d.
Proof.
  induction d as [|[k' v'] d IH]; simpl; [discriminate|].
  destruct (String.eqb k k') eqn:E.
  - apply String.eqb_eq in E. subst. intros _. apply elem_of_cons. left. reflexivity.
  - intros H. apply elem_of_cons. right. apply IH, H.
Qed.

Lemma dict_get_None_keys {V} (k : string) (d : list (string * V)) :
  k ∉ Dict.keys d -> Dict.get k d = None.
Proof.
  induction d as [|[k' v'] d IH]; simpl; [reflexivity|].
  intros Hnin. destruct (String.eqb k k') eqn:E.
  - apply String.eqb_eq in E. subst. exfalso. apply Hnin, elem_of_cons. left. reflexivity.
  - apply IH. intros Hin. apply Hnin, elem_of_cons. right. exact Hin.
Qed.

Lemma dict_set_fresh {V} (k : string) (v : V) d :
  k ∉ Dict.keys d -> Dict.set k v d = (d ++ [(k, v)])%list.
Proof.
  induction d as [|[k' v'] d IH]; simpl; [reflexivity|].
  intros Hnin. destruct (String.eqb k k') eqn:E.
  - apply String.eqb_eq in E. subst. exfalso. apply Hnin, elem_of_cons. left. reflexivity.
  - rewrite IH; [reflexivity|]. intros Hin. apply Hnin, elem_of_cons. right. exact Hin.
Qed.

(** ** The resolver *)

Section Resolver.

Variable up : upstream.

Lemma get_latest_release_run repo_url w :
  _get_latest_release up repo_url w
  = (Ret (release_of up repo_url), add_logs (release_reqs repo_url) w).
Proof.
  unfold _get_latest_release, release_of, release_reqs.
  destruct (repo_parts repo_url) as [|owner [|repo rest]];
    unfold ret; rewrite ?add_logs_nil; reflexivity.
Qed.

Lemma get_latest_commit_main repo_url w :
  _get_latest_commit up repo_url "main" w
  = (Ret (commit_of up repo_url "main"), add_logs (commit_reqs up repo_url "main") w).
Proof.
  simp _get_latest_commit. unfold commit_of, commit_reqs.
  destruct (repo_parts repo_url) as [|owner [|repo rest]]; simpl;
    rewrite ?add_logs_nil; try reflexivity.
  unfold get_commit.
  destruct (commit_at up (commit_api_url owner repo "main")); reflexivity.
Qed.

Lemma get_latest_commit_run repo_url branch w :
  _get_latest_commit up repo_url branch w
  = (Ret (commit_of up repo_url branch), add_logs (commit_reqs up repo_url branch) w).
Proof.
  simp _get_latest_commit. unfold commit_of, commit_reqs.
  destruct (repo_parts repo_url) as [|owner [|repo rest]] eqn:Hparts; simpl;
    rewrite ?add_logs_nil; try reflexivity.
  unfold get_commit.
  destruct (commit_at up (commit_api_url owner repo branch)) eqn:Hc; simpl;
    [reflexivity|].
  destruct (decide (branch = "master")) as [->|Hne]; simpl; [|reflexivity].
  rewrite get_latest_commit_main. unfold commit_of, commit_reqs.
  rewrite Hparts, add_log_logs, add_logs_app. simpl.
  destruct (commit_at up (commit_api_url owner repo "main")); reflexivity.
Qed.

Lemma resolve_latest_run repo_url use_releases w :
  resolve_latest up repo_url use_releases w
  = (Ret (latest_of up repo_url use_releases),
     add_logs (latest_reqs up repo_url use_releases) w).
Proof.
  unfold resolve_latest, latest_of, latest_reqs.
  destruct use_releases.
  - unfold bind at 1. unfold bind at 1. rewrite get_latest_release_run.
    unfold ret at 1.
    destruct (release_of up repo_url); simpl.
    + rewrite app_nil_r. reflexivity.
    + unfold bind. rewrite get_latest_commit_run, add_logs_app. reflexivity.
  - unfold bind, ret. rewrite get_latest_commit_run. reflexivity.
Qed.

Lemma release_reqs_no_download repo_url :
  forallb (fun r => negb (is_download r)) (release_reqs repo_url) = true.
Proof.
  unfold release_reqs. destruct (repo_parts repo_url) as [|? [|? ?]]; reflexivity.
Qed.

Lemma commit_reqs_no_download repo_url branch :
  forallb (fun r => negb (is_download r)) (commit_reqs up repo_url branch) = true.
Proof.
  unfold commit_reqs. destruct (repo_parts repo_url) as [|o [|r ?]]; try reflexivity.
  destruct (commit_at up _); [reflexivity|].
  destruct (decide _); reflexivity.
Qed.

Lemma latest_reqs_no_download repo_url use_releases :
  forallb (fun r => negb (is_download r)) (latest_reqs up repo_url use_releases) = true.
Proof.
  unfold latest_reqs. destruct use_releases.
  - rewrite forallb_app, release_reqs_no_download. simpl.
    destruct (release_of up repo_url); [reflexivity|].
    apply commit_reqs_no_download.
  - apply commit_reqs_no_download.
Qed.

(** C4. When the lookup of "master" fails, [_get_latest_commit] asks for
    "main" once more and answers what that lookup gives: exactly two
    requests are sent, never a third.  A failed lookup of any other branch
    is the only request sent and the answer is a failure. *)
Theorem get_latest_commit_fallback repo_url owner repo rest w :
  repo_parts repo_url = owner :: repo :: rest ->
  (commit_at up (commit_api_url owner repo "master") = None ->
   _get_latest_commit up repo_url "master" w
   = (Ret (commit_at up (commit_api_url owner repo "main")),
      add_logs [ReqCommit (commit_api_url owner repo "master");
                ReqCommit (commit_api_url owner repo "main")] w))
  /\ (forall branch,
        branch <> "master" ->
        commit_at up (commit_api_url owner repo branch) = None ->
        _get_latest_commit up repo_url branch w
        = (Ret None, add_logs [ReqCommit (commit_api_url owner repo branch)] w)).
Proof.
  intros Hparts. split.
  - intros Hfail. rewrite get_latest_commit_run.
    unfold commit_of, commit_reqs. rewrite Hparts, Hfail. reflexivity.
  - intros branch Hne Hfail. rewrite get_latest_commit_run.
    unfold commit_of, commit_reqs. rewrite Hparts, Hfail.
    destruct (decide (branch = "master")); [contradiction|reflexivity].
Qed.

End Resolver.

(** ** One update, step by step *)

(** The path of a version record is never empty. *)
Lemma version_file_nonempty name : String.eqb (version_file name) EmptyString = false.
Proof.
  unfold version_file, PyStr.path_join.
  change (PyStr.startswith "/" "version.json") with false. cbv iota.
  destruct (String.eqb name EmptyString || PyStr.ends_with_slash name);
    destruct name; reflexivity.
Qed.

Section Runs.

Variable os : host.
Variable config : list (string * component_config).
Variable up : upstream.
Variable json_loads : string -> option json.
Variable json_dumps : json -> string.
Variable sha256_hexdigest : string -> string.
Variable isoformat_now : nat -> string.

Local Abbreviation update_component' :=
  (update_component os config up json_loads json_dumps sha256_hexdigest isoformat_now).
Local Abbreviation install' := (install os up json_dumps sha256_hexdigest isoformat_now).
Local Abbreviation apply_latest' :=
  (apply_latest os up json_dumps sha256_hexdigest isoformat_now).

Lemma get_current_version_run name w :
  _get_current_version os json_loads name w
  = (read_version os json_loads (version_file name) (fs w), w).
Proof.
  unfold _get_current_version, read_version, bind, read_file.
  destruct (read_lookup os (version_file name) (fs w)) as [[[b|j]|]|e]; try reflexivity.
  cbn [decode_record]. destruct (text_decodes os b); [|reflexivity].
  destruct (json_loads b); reflexivity.
Qed.

Lemma read_version_lookup p m cur :
  read_version os json_loads p m = Ret cur -> exists c, read_lookup os p m = Ret c.
Proof. unfold read_version. destruct (read_lookup os p m); [eauto|discriminate]. Qed.

Lemma read_lookup_written p m m' c x :
  String.eqb p EmptyString = false ->
  read_lookup os p m = Ret c ->
  read_lookup os p (<[canon os p := x]> m') = Ret (Some x).
Proof.
  unfold read_lookup. intros ->. destruct (open_read_error os p); [discriminate|].
  intros _. rewrite lookup_insert_eq. reflexivity.
Qed.

(** A record that was just written is the record read, on a machine where
    the path of the record could be opened before. *)
Lemma read_version_written name m m' cur j :
  read_version os json_loads (version_file name) m = Ret cur ->
  read_version os json_loads (version_file name)
    (<[canon os (version_file name) := FJson j]> m') = Ret (Some j).
Proof.
  intros H. apply read_version_lookup in H as [c Hc].
  unfold read_version.
  rewrite (read_lookup_written _ _ m' _ (FJson j) (version_file_nonempty name) Hc).
  reflexivity.
Qed.


Lemma download_file_run url dest w :
  _download_file os up url dest w
  = match content_at up url with
    | Some b =>
        match download_error os dest with
        | Some e => (Raise e, add_logs [ReqFile url] w)
        | None =>
            (Ret true,
             set_fs (<[canon os dest := FBytes b]> (fs w)) (add_logs [ReqFile url] w))
        end
    | None => (Ret false, add_logs [ReqFile url] w)
    end.
Proof.
  unfold _download_file, bind, get_content, download_error, makedirs, write_file.
  destruct (content_at up url); [|reflexivity].
  destruct (makedirs_outcome os (PyStr.dirname dest)); [reflexivity|].
  destruct (open_write_outcome os dest); reflexivity.
Qed.

Lemma download_files_run name repo_url li fl updated w :
  download_files os up name repo_url li fl updated w
  = (downloads_result os up name repo_url li fl updated,
     after_downloads os up name repo_url li fl w).
Proof.
  revert updated w. induction fl as [|f fl IH]; intros updated w.
  - simpl. unfold ret, after_downloads. simpl.
    f_equal. apply world_eq; simpl; auto using app_nil_r.
  - cbn [download_files downloads_result].
    unfold bind at 1. rewrite download_file_run.
    change (PyStr.path_join name (destination f)) with (dest_path name f).
    change (download_url repo_url li (source f)) with (file_url repo_url li f).
    unfold after_downloads. cbn [attempted]. unfold fetched at 1 2.
    destruct (content_at up (file_url repo_url li f)) as [b|] eqn:Hb.
    + destruct (download_error os (dest_path name f)) as [e|] eqn:He.
      * f_equal. apply world_eq; simpl; try reflexivity.
        rewrite Hb, He. reflexivity.
      * rewrite IH. f_equal. unfold after_downloads.
        apply world_eq; simpl.
        -- rewrite Hb, He. reflexivity.
        -- rewrite <- app_assoc. reflexivity.
        -- reflexivity.
    + unfold ret. f_equal. apply world_eq; simpl; try reflexivity.
      rewrite Hb. reflexivity.
Qed.

Lemma fetched_inv name repo_url li f :
  fetched os up name repo_url li f = true ->
  (exists b, content_at up (file_url repo_url li f) = Some b)
  /\ download_error os (dest_path name f) = None.
Proof.
  unfold fetched.
  destruct (content_at up (file_url repo_url li f)) as [b|]; [|discriminate].
  destruct (download_error os (dest_path name f)); [discriminate|]. eauto.
Qed.

Lemma downloads_result_fetched name repo_url li fl updated :
  forallb (fetched os up name repo_url li) fl = true ->
  downloads_result os up name repo_url li fl updated
  = Ret (Some (updated ++ map (dest_path name) fl)%list)
  /\ attempted os up name repo_url li fl = fl.
Proof.
  revert updated. induction fl as [|f fl IH]; intros updated Hall.
  - simpl. rewrite app_nil_r. split; reflexivity.
  - simpl in Hall. apply andb_prop in Hall as [Hf Hall].
    cbn [downloads_result attempted map]. rewrite Hf.
    destruct (fetched_inv _ _ _ _ Hf) as [[b ->] ->].
    destruct (IH (updated ++ [dest_path name f])%list Hall) as [-> ->].
    rewrite <- app_assoc. split; reflexivity.
Qed.

Lemma downloads_result_Some name repo_url li fl updated upd :
  downloads_result os up name repo_url li fl updated = Ret (Some upd) ->
  forallb (fetched os up name repo_url li) fl = true.
Proof.
  revert updated. induction fl as [|f fl IH]; intros updated; [reflexivity|].
  cbn [downloads_result forallb]. unfold fetched at 1.
  destruct (content_at up (file_url repo_url li f)); [|discriminate].
  destruct (download_error os (dest_path name f)); [discriminate|].
  intros H. rewrite (IH _ H). reflexivity.
Qed.



Lemma calculate_file_hash_run f w :
  _calculate_file_hash os json_dumps sha256_hexdigest f w
  = (hash_of os json_dumps sha256_hexdigest (fs w) f, w).
Proof.
  unfold _calculate_file_hash, hash_of, bind, read_file.
  destruct (read_lookup os f (fs w)) as [[c|]|e]; reflexivity.
Qed.

Lemma file_hashes_run fl acc w :
  file_hashes os json_dumps sha256_hexdigest fl acc w
  = (hashes_of os json_dumps sha256_hexdigest (fs w) fl acc, w).
Proof.
  revert acc. induction fl as [|f fl IH]; intros acc; [reflexivity|].
  cbn [file_hashes hashes_of]. unfold bind at 1. rewrite calculate_file_hash_run.
  destruct (hash_of os json_dumps sha256_hexdigest (fs w) f); [apply IH|reflexivity].
Qed.

Lemma save_version_info_run name j w :
  _save_version_info os name j w
  = match save_error os name with
    | Some e => (Raise e, w)
    | None => (Ret tt, set_fs (<[canon os (version_file name) := FJson j]> (fs w)) w)
    end.
Proof.
  unfold _save_version_info, bind, makedirs, write_file, save_error.
  destruct (makedirs_outcome os name); [reflexivity|].
  destruct (open_write_outcome os (version_file name)); reflexivity.
Qed.

Lemma install_run name repo_url fl li w :
  install' name repo_url fl li w
  = install_result os up json_dumps sha256_hexdigest isoformat_now name repo_url li fl w.
Proof.
  unfold install, install_result. unfold bind at 1. rewrite download_files_run.
  destruct (downloads_result os up name repo_url li fl []) as [[upd|]|e] eqn:Hd;
    [|reflexivity|reflexivity].
  unfold bind at 1. unfold datetime_now.
  unfold bind at 1. rewrite file_hashes_run.
  change (fs (tick (after_downloads os up name repo_url li fl w)))
    with (fs (after_downloads os up name repo_url li fl w)).
  destruct (hashes_of os json_dumps sha256_hexdigest
              (fs (after_downloads os up name repo_url li fl w)) upd []) as [hs|e];
    [|reflexivity].
  unfold bind at 1. rewrite save_version_info_run.
  destruct (save_error os name); [reflexivity|].
  unfold ret. f_equal. unfold after_install.
  pose proof (downloads_result_Some _ _ _ _ _ _ Hd) as Hall.
  destruct (downloads_result_fetched name repo_url li fl [] Hall) as [Hres _].
  rewrite Hres in Hd. injection Hd as <-. reflexivity.
Qed.

(** What an install that returned [True] did. *)
Lemma install_true name repo_url fl li w w' :
  install' name repo_url fl li w = (Ret true, w') ->
  exists hs,
    forallb (fetched os up name repo_url li) fl = true
    /\ hashes_of os json_dumps sha256_hexdigest
         (fs (after_downloads os up name repo_url li fl w))
         (map (dest_path name) fl) [] = Ret hs
    /\ save_error os name = None
    /\ w' = after_install os up isoformat_now name repo_url li fl hs w.
Proof.
  rewrite install_run. unfold install_result.
  destruct (downloads_result os up name repo_url li fl []) as [[upd|]|e] eqn:Hd;
    [|discriminate|discriminate].
  pose proof (downloads_result_Some _ _ _ _ _ _ Hd) as Hall.
  destruct (downloads_result_fetched name repo_url li fl [] Hall) as [Hres _].
  rewrite Hres in Hd. injection Hd as <-. cbn [app].
  destruct (hashes_of os json_dumps sha256_hexdigest
              (fs (after_downloads os up name repo_url li fl w))
              (map (dest_path name) fl) []) as [hs|e]; [|discriminate].
  destruct (save_error os name); [discriminate|].
  intros [= <-]. exists hs. auto.
Qed.

(** The requests of an install are those of its download loop. *)
Lemma install_log name repo_url fl li w :
  log (install' name repo_url fl li w).2
  = log (after_downloads os up name repo_url li fl w).
Proof.
  rewrite install_run. unfold install_result.
  destruct (downloads_result os up name repo_url li fl []) as [[upd|]|e];
    [|reflexivity|reflexivity].
  destruct (hashes_of os json_dumps sha256_hexdigest
              (fs (after_downloads os up name repo_url li fl w)) upd []);
    [|reflexivity].
  destruct (save_error os name); reflexivity.
Qed.

(** The files after an install are those after its download loop, with the
    version record when it was written. *)
Lemma install_fs name repo_url fl li w :
  fs (install' name repo_url fl li w).2
  = fs (after_downloads os up name repo_url li fl w)
  \/ exists j,
       fs (install' name repo_url fl li w).2
       = <[canon os (version_file name) := FJson j]>
           (fs (after_downloads os up name repo_url li fl w)).
Proof.
  rewrite install_run. unfold install_result.
  destruct (downloads_result os up name repo_url li fl []) as [[upd|]|e];
    [|left; reflexivity|left; reflexivity].
  destruct (hashes_of os json_dumps sha256_hexdigest
              (fs (after_downloads os up name repo_url li fl w)) upd []);
    [|left; reflexivity].
  destruct (save_error os name); [left; reflexivity|].
  right. eexists. reflexivity.
Qed.

Lemma apply_latest_run name repo_url fl cur li w :
  apply_latest' name repo_url fl cur li w
  = match current_hash cur (version_key li) with
    | Raise e => (Raise e, w)
    | Ret h =>
        if eq_str h (latest_version li) then (Ret true, w)
        else install' name repo_url fl li w
    end.
Proof.
  unfold apply_latest, bind, lift.
  destruct (current_hash cur (version_key li)) as [h|e]; [|reflexivity].
  destruct (eq_str h (latest_version li)); reflexivity.
Qed.

Lemma update_component_run name w :
  update_component' name w
  = match Dict.get name config with
    | None => (Ret false, w)
    | Some cc =>
        match read_version os json_loads (version_file name) (fs w) with
        | Raise e => (Raise e, w)
        | Ret cur =>
            let use := default true (use_releases cc) in
            let w1 := add_logs (latest_reqs up (source_url cc) use) w in
            match latest_of up (source_url cc) use with
            | None => (Ret false, w1)
            | Some li => apply_latest' name (source_url cc) (files cc) cur li w1
            end
        end
    end.
Proof.
  unfold update_component.
  destruct (Dict.get name config) as [cc|]; [|reflexivity].
  unfold bind at 1. rewrite get_current_version_run.
  destruct (read_version os json_loads (version_file name) (fs w)) as [cur|e];
    [|reflexivity].
  unfold bind at 1. rewrite resolve_latest_run.
  destruct (latest_of up (source_url cc) (default true (use_releases cc)));
    reflexivity.
Qed.

Lemma install_first_request name repo_url f rest li w :
  exists l,
    log (install' name repo_url (f :: rest) li w).2
    = (log w ++ ReqFile (download_url repo_url li (source f)) :: l)%list.
Proof.
  rewrite install_log.
  exists (map (fun g => ReqFile (file_url repo_url li g))
            (if fetched os up name repo_url li f
             then attempted os up name repo_url li rest else [])).
  reflexivity.
Qed.

(** C3. When the identifier stored under the key of the active mode equals
    the latest identifier, [update_component] returns [True], the files and
    the clock are untouched and no file is requested.  An absent record, or
    a record without that key, equals no latest identifier: the update then
    runs the download loop, starting with the first configured file. *)
Theorem update_component_no_op name cc cur li h w w1 :
  Dict.get name config = Some cc ->
  _get_current_version os json_loads name w = (Ret cur, w) ->
  resolve_latest up (source_url cc) (default true (use_releases cc)) w
    = (Ret (Some li), w1) ->
  current_hash cur (version_key li) = Ret h ->
  (eq_str h (latest_version li) = true ->
   update_component' name w = (Ret true, w1)
   /\ fs w1 = fs w /\ ticks w1 = ticks w
   /\ exists l, log w1 = (log w ++ l)%list
               /\ forallb (fun r => negb (is_download r)) l = true)
  /\ (cur = None \/ (exists d, cur = Some (JObj d) /\ Dict.get (version_key li) d = None) ->
      eq_str h (latest_version li) = false
      /\ update_component' name w = install' name (source_url cc) (files cc) li w1
      /\ forall f rest, files cc = f :: rest ->
           exists l, log (update_component' name w).2
                     = (log w1 ++ ReqFile (download_url (source_url cc) li (source f)) :: l)%list).
Proof.
  intros Hcfg Hcur Hres Hh.
  rewrite get_current_version_run in Hcur. injection Hcur as Hcur.
  rewrite resolve_latest_run in Hres. injection Hres as Hli Hw1.
  assert (Hrun : update_component' name w
                 = if eq_str h (latest_version li) then (Ret true, w1)
                   else install' name (source_url cc) (files cc) li w1).
  { rewrite update_component_run, Hcfg, Hcur. cbv zeta. rewrite Hli, Hw1.
    rewrite apply_latest_run, Hh. reflexivity. }
  split.
  - intros Heq. rewrite Hrun, Heq. subst w1. repeat split.
    eexists. split; [reflexivity|]. apply latest_reqs_no_download.
  - intros Habs.
    assert (Hne : eq_str h (latest_version li) = false).
    { destruct Habs as [->|(d & -> & Hd)].
      - injection Hh as <-. reflexivity.
      - unfold current_hash in Hh. rewrite Hd in Hh.
        destruct (truthy (JObj d)); injection Hh as <-; reflexivity. }
    rewrite Hrun, Hne. split; [reflexivity|]. split; [reflexivity|].
    intros f rest ->. apply install_first_request.
Qed.

Lemma current_hash_version_info repo_url li now updated hashes :
  current_hash (Some (version_info repo_url li now updated hashes)) (version_key li)
  = Ret (Some (JStr (latest_version li))).
Proof. destruct li; reflexivity. Qed.

Lemma version_info_keys repo_url li now updated hashes :
  exists d,
    version_info repo_url li now updated hashes = JObj d
    /\ Dict.get "version" d = Some (JStr (latest_version li))
    /\ Dict.get "commit_hash" d
       = match li with
         | Commit _ => Some (JStr (latest_version li))
         | Release _ => None
         end.
Proof. destruct li; eexists; repeat split. Qed.

(** What a run that returned [True] did: nothing but resolve (the stored
    identifier is the latest one), or download every file and write the
    record. *)
Lemma update_component_true_inv name w w' :
  update_component' name w = (Ret true, w') ->
  exists cc cur li h,
    Dict.get name config = Some cc
    /\ read_version os json_loads (version_file name) (fs w) = Ret cur
    /\ latest_of up (source_url cc) (default true (use_releases cc)) = Some li
    /\ current_hash cur (version_key li) = Ret h
    /\ let w1 := add_logs (latest_reqs up (source_url cc) (default true (use_releases cc))) w in
       (eq_str h (latest_version li) = true /\ w' = w1)
       \/ (eq_str h (latest_version li) = false
           /\ exists hs,
                forallb (fetched os up name (source_url cc) li) (files cc) = true
                /\ hashes_of os json_dumps sha256_hexdigest
                     (fs (after_downloads os up name (source_url cc) li (files cc) w1))
                     (map (dest_path name) (files cc)) [] = Ret hs
                /\ save_error os name = None
                /\ w' = after_install os up isoformat_now
                          name (source_url cc) li (files cc) hs w1).
Proof.
  rewrite update_component_run.
  destruct (Dict.get name config) as [cc|] eqn:Hcfg; [|discriminate].
  destruct (read_version os json_loads (version_file name) (fs w)) as [cur|e] eqn:Hcur;
    [|discriminate].
  cbv zeta.
  destruct (latest_of up (source_url cc) (default true (use_releases cc))) as [li|] eqn:Hli;
    [|discriminate].
  rewrite apply_latest_run.
  destruct (current_hash cur (version_key li)) as [h|e] eqn:Hh; [|discriminate].
  destruct (eq_str h (latest_version li)) eqn:Heq.
  - intros [= <-]. exists cc, cur, li, h. do 4 (split; [auto|]). left. auto.
  - intros Hinst. apply install_true in Hinst as (hs & Hall & Hhs & Hsave & ->).
    exists cc, cur, li, h. do 4 (split; [auto|]). right. split; [auto|].
    exists hs. auto.
Qed.

(** C1. After a run of [update_component] that returned [True], a second
    run against the same upstream returns [True] as a no-op: it requests no
    file, leaves every file and the clock alone, and so the version record
    (identifier and hashes) read after it is the one read before it.  The
    tracking mode is whatever the configuration and the upstream give. *)
Theorem update_component_twice name w w1 :
  update_component' name w = (Ret true, w1) ->
  exists w2 l,
    update_component' name w1 = (Ret true, w2)
    /\ fs w2 = fs w1
    /\ ticks w2 = ticks w1
    /\ log w2 = (log w1 ++ l)%list
    /\ forallb (fun r => negb (is_download r)) l = true
    /\ fst (_get_current_version os json_loads name w2)
       = fst (_get_current_version os json_loads name w1).
Proof.
  intros Hrun.
  destruct (update_component_true_inv _ _ _ Hrun)
    as (cc & cur & li & h & Hcfg & Hcur & Hli & Hh & Hcase).
  set (l := latest_reqs up (source_url cc) (default true (use_releases cc))) in *.
  exists (add_logs l w1), l.
  split; [|repeat split].
  - destruct Hcase as [[Heq ->]|[Hne (hs & _ & _ & _ & ->)]];
      rewrite update_component_run, Hcfg.
    + cbn [fs add_logs]. rewrite Hcur. cbv zeta.
      rewrite Hli, apply_latest_run, Hh, Heq. reflexivity.
    + cbn [fs after_install]. rewrite (read_version_written _ _ _ _ _ Hcur).
      cbv zeta.
      rewrite Hli, apply_latest_run, current_hash_version_info.
      cbn [eq_str]. rewrite String.eqb_refl. reflexivity.
  - apply latest_reqs_no_download.
  - rewrite !get_current_version_run. reflexivity.
Qed.

(** C10. A run that returned [True] found the stored identifier equal to the
    latest one and wrote nothing, or found it different and wrote a version
    record whose "version" key holds the latest identifier and whose
    "commit_hash" key holds the same identifier for a commit and is absent
    for a release; the key of the mode, read back from the record on disk,
    gives that identifier. *)
Theorem version_record_keys name w w' :
  update_component' name w = (Ret true, w') ->
  exists cc cur li h,
    Dict.get name config = Some cc
    /\ fst (_get_current_version os json_loads name w) = Ret cur
    /\ fst (resolve_latest up (source_url cc) (default true (use_releases cc)) w)
       = Ret (Some li)
    /\ current_hash cur (version_key li) = Ret h
    /\ ((eq_str h (latest_version li) = true
         /\ fs w' = fs w /\ ticks w' = ticks w)
        \/ (eq_str h (latest_version li) = false
            /\ ticks w' = S (ticks w)
            /\ exists d,
                 fs w' !! canon os (version_file name) = Some (FJson (JObj d))
                 /\ Dict.get "version" d = Some (JStr (latest_version li))
                 /\ Dict.get "commit_hash" d
                    = match li with
                      | Commit _ => Some (JStr (latest_version li))
                      | Release _ => None
                      end
                 /\ _get_current_version os json_loads name w' = (Ret (Some (JObj d)), w')
                 /\ current_hash (Some (JObj d)) (version_key li)
                    = Ret (Some (JStr (latest_version li))))).
Proof.
  intros Hrun.
  destruct (update_component_true_inv _ _ _ Hrun)
    as (cc & cur & li & h & Hcfg & Hcur & Hli & Hh & Hcase).
  exists cc, cur, li, h.
  split; [exact Hcfg|]. split; [rewrite get_current_version_run; exact Hcur|].
  split; [rewrite resolve_latest_run; simpl; rewrite Hli; reflexivity|].
  split; [exact Hh|].
  destruct Hcase as [[Heq ->]|[Hne (hs & _ & _ & _ & ->)]].
  - left. repeat split. exact Heq.
  - right. split; [exact Hne|]. split; [reflexivity|].
    set (w1 := add_logs _ w).
    set (upd := map (dest_path name) (files cc)).
    destruct (version_info_keys (source_url cc) li (isoformat_now (ticks w1)) upd hs)
      as (d & Hd & Hv & Hc).
    assert (Hfs : fs (after_install os up isoformat_now
                        name (source_url cc) li (files cc) hs w1)
                    !! canon os (version_file name)
                  = Some (FJson (JObj d))).
    { unfold after_install. cbn [fs]. rewrite lookup_insert_eq.
      fold upd. rewrite Hd. reflexivity. }
    exists d. split; [exact Hfs|]. split; [exact Hv|]. split; [exact Hc|]. split.
    + rewrite get_current_version_run. f_equal.
      unfold after_install. cbn [fs]. fold upd. rewrite Hd.
      apply (read_version_written _ _ _ _ _ Hcur).
    + rewrite <- Hd. apply current_hash_version_info.
Qed.


Lemma store_all_cons name repo_url li g fl m :
  store_all os up name repo_url li (g :: fl) m
  = store_all os up name repo_url li fl
      match content_at up (file_url repo_url li g),
            download_error os (dest_path name g) with
      | Some b, None => <[canon os (dest_path name g) := FBytes b]> m
      | _, _ => m
      end.
Proof. reflexivity. Qed.


Lemma store_all_written name repo_url li fl m p :
  forallb (fetched os up name repo_url li) fl = true ->
  (exists g, g ∈ fl /\ canon os (dest_path name g) = p)
  \/ (exists b, m !! p = Some (FBytes b)) ->
  exists b, store_all os up name repo_url li fl m !! p = Some (FBytes b).
Proof.
  revert m. induction fl as [|g fl IH]; intros m Hs Hp.
  - destruct Hp as [(g & Hg & _)|Hp]; [|exact Hp]. inversion Hg.
  - simpl in Hs. apply andb_prop in Hs as [Hg Hs].
    rewrite store_all_cons. apply IH; [exact Hs|].
    destruct (fetched_inv _ _ _ _ Hg) as [[b ->] ->].
    destruct Hp as [(g' & Hin & Hd)|(b' & Hb')].
    + apply elem_of_cons in Hin as [->|Hin].
      * right. exists b. rewrite Hd. apply lookup_insert_eq.
      * left. exists g'. split; assumption.
    + right. destruct (decide (canon os (dest_path name g) = p)) as [<-|Hne].
      * exists b. apply lookup_insert_eq.
      * exists b'. rewrite lookup_insert_ne by exact Hne. exact Hb'.
Qed.


(** C5. For a component that prefers releases ([use_releases] absent or
    true) and whose release lookup fails, the same call of
    [update_component] asks for the latest commit: of branch "master" and,
    when that fails, of branch "main".  When no commit is found the call
    returns [False].  When a commit is found its identifier is used: the
    key "commit_hash" of the stored record is compared with the first eight
    characters of its hash; when they are equal the call returns [True],
    otherwise the files are requested at the raw URL of the full hash, and
    a call that returns [True] has written a record whose keys "version" and
    "commit_hash" hold the eight characters.  A source URL with fewer than
    two parts fails both lookups without a request. *)
Theorem release_lookup_falls_back name cc cur w :
  Dict.get name config = Some cc ->
  use_releases cc <> Some false ->
  _get_current_version os json_loads name w = (Ret cur, w) ->
  (forall owner repo rest,
     repo_parts (source_url cc) = owner :: repo :: rest ->
     release_at up (release_api_url owner repo) = None ->
     let master := commit_api_url owner repo "master" in
     let main := commit_api_url owner repo "main" in
     let w1 :=
       add_logs (ReqRelease (release_api_url owner repo) :: ReqCommit master ::
                 match commit_at up master with
                 | Some _ => []
                 | None => [ReqCommit main]
                 end) w in
     match (match commit_at up master with
            | Some c => Some c
            | None => commit_at up main
            end) with
     | None => update_component' name w = (Ret false, w1)
     | Some c =>
         match current_hash cur "commit_hash" with
         | Raise e => update_component' name w = (Raise e, w1)
         | Ret h =>
             if eq_str h (PyStr.take 8 (sha c))
             then update_component' name w = (Ret true, w1)
             else
               (forall f fl, files cc = f :: fl ->
                  exists l,
                    log (update_component' name w).2
                    = (log w1 ++ ReqFile (source_url cc +:+ "/raw/" +:+ sha c +:+ "/"
                                          +:+ source f) :: l)%list)
               /\ (forall w', update_component' name w = (Ret true, w') ->
                     exists d,
                       fs w' !! canon os (version_file name) = Some (FJson (JObj d))
                       /\ Dict.get "version" d = Some (JStr (PyStr.take 8 (sha c)))
                       /\ Dict.get "commit_hash" d = Some (JStr (PyStr.take 8 (sha c))))
         end
     end)
  /\ (length (repo_parts (source_url cc)) < 2 ->
      update_component' name w = (Ret false, w)).
Proof.
  intros Hcfg Huse Hcur.
  rewrite get_current_version_run in Hcur. injection Hcur as Hcur.
  assert (Hdef : default true (use_releases cc) = true)
    by (destruct (use_releases cc) as [[|]|]; [reflexivity|contradiction|reflexivity]).
  pose proof (update_component_run name w) as Hrun.
  rewrite Hcfg, Hcur in Hrun. cbv zeta in Hrun. rewrite Hdef in Hrun.
  unfold latest_of, latest_reqs, release_of, release_reqs, commit_of, commit_reqs in Hrun.
  split.
  - intros owner repo rest Hparts Hrel master main w1.
    rewrite Hparts, Hrel in Hrun. cbn [fmap option_fmap option_map] in Hrun.
    destruct (decide ("master" = "master")) as [_|Hx]; [|contradiction].
    fold master main in Hrun.
    change (add_logs _ w) with w1 in Hrun.
    destruct (commit_at up master) as [c|] eqn:Hmaster.
    + rewrite Hrun. cbn [fmap option_fmap option_map].
      rewrite apply_latest_run. cbn [version_key latest_version].
      destruct (current_hash cur "commit_hash") as [h|e]; [|reflexivity].
      destruct (eq_str h (PyStr.take 8 (sha c))) eqn:Heq; [reflexivity|].
      split.
      * intros f fl ->. apply install_first_request.
      * intros w' Hinst. apply install_true in Hinst as (hs & _ & _ & _ & ->).
        destruct (version_info_keys (source_url cc) (Commit c)
                    (isoformat_now (ticks w1)) (map (dest_path name) (files cc)) hs)
          as (d & Hd & Hv & Hc).
        exists d. unfold after_install. cbn [fs]. rewrite lookup_insert_eq, Hd.
        split; [reflexivity|]. split; assumption.
    + destruct (commit_at up main) as [c|] eqn:Hmain.
      * rewrite Hrun. cbn [fmap option_fmap option_map].
        rewrite apply_latest_run. cbn [version_key latest_version].
        destruct (current_hash cur "commit_hash") as [h|e]; [|reflexivity].
        destruct (eq_str h (PyStr.take 8 (sha c))) eqn:Heq; [reflexivity|].
        split.
        -- intros f fl ->. apply install_first_request.
        -- intros w' Hinst. apply install_true in Hinst as (hs & _ & _ & _ & ->).
           destruct (version_info_keys (source_url cc) (Commit c)
                       (isoformat_now (ticks w1)) (map (dest_path name) (files cc)) hs)
             as (d & Hd & Hv & Hc).
           exists d. unfold after_install. cbn [fs]. rewrite lookup_insert_eq, Hd.
           split; [reflexivity|]. split; assumption.
      * exact Hrun.
  - intros Hlen.
    destruct (repo_parts (source_url cc)) as [|owner [|repo rest]];
      [| |simpl in Hlen; lia].
    + rewrite Hrun. cbn. rewrite add_logs_nil. reflexivity.
    + rewrite Hrun. cbn. rewrite add_logs_nil. reflexivity.
Qed.

End Runs.

(** ** Every component: [check_for_updates] and [update_all_components] *)

Section AllComponents.

Variable os : host.
Variable config : list (string * component_config).
Variable up : upstream.
Variable json_loads : string -> option json.
Variable json_dumps : json -> string.
Variable sha256_hexdigest : string -> string.
Variable isoformat_now : nat -> string.

Local Abbreviation update_component' :=
  (update_component os config up json_loads json_dumps sha256_hexdigest isoformat_now).
Local Abbreviation update_each' :=
  (update_each os config up json_loads json_dumps sha256_hexdigest isoformat_now).
Local Abbreviation update_all_components' :=
  (update_all_components os config up json_loads json_dumps sha256_hexdigest isoformat_now).

Lemma check_component_run name updates w :
  check_component os config up json_loads name updates w
  = match Dict.get name config with
    | None => (Raise KeyError, w)
    | Some cc =>
        match read_version os json_loads (version_file name) (fs w) with
        | Raise e => (Raise e, w)
        | Ret cur =>
            let use := default true (use_releases cc) in
            let w1 := add_logs (latest_reqs up (source_url cc) use) w in
            match latest_of up (source_url cc) use with
            | None => (Ret updates, w1)
            | Some li =>
                match current_hash cur (version_key li) with
                | Raise e => (Raise e, w1)
                | Ret h =>
                    (Ret (if negb (eq_str h (latest_version li))
                          then Dict.set name
                                 {| current := or_na h;
                                    latest := latest_version li;
                                    url := source_url cc |} updates
                          else updates), w1)
                end
            end
        end
    end.
Proof.
  unfold check_component.
  destruct (Dict.get name config) as [cc|]; [|reflexivity].
  unfold bind at 1. rewrite get_current_version_run.
  destruct (read_version os json_loads (version_file name) (fs w)) as [cur|e];
    [|reflexivity].
  cbv zeta. unfold latest_of, latest_reqs.
  destruct (default true (use_releases cc)).
  - unfold bind at 1. unfold bind at 1. rewrite get_latest_release_run.
    destruct (release_of up (source_url cc)) as [r|].
    + rewrite app_nil_r. unfold ret at 1. unfold bind, lift.
      destruct (current_hash cur (version_key (Release r))) as [h|e]; [|reflexivity].
      destruct (negb (eq_str h (latest_version (Release r)))); reflexivity.
    + unfold bind at 1. rewrite get_latest_commit_run, add_logs_app.
      unfold ret at 1.
      destruct (commit_of up (source_url cc) "master") as [c|]; [|reflexivity].
      unfold bind, lift. cbn [fmap option_fmap option_map].
      destruct (current_hash cur (version_key (Commit c))) as [h|e]; [|reflexivity].
      destruct (negb (eq_str h (latest_version (Commit c)))); reflexivity.
  - unfold bind at 1. unfold bind at 1. rewrite get_latest_commit_run.
    unfold ret at 1.
    destruct (commit_of up (source_url cc) "master") as [c|]; [|reflexivity].
    unfold bind, lift. cbn [fmap option_fmap option_map].
    destruct (current_hash cur (version_key (Commit c))) as [h|e]; [|reflexivity].
    destruct (negb (eq_str h (latest_version (Commit c)))); reflexivity.
Qed.

Lemma check_component_frame name updates w :
  exists l,
    snd (check_component os config up json_loads name updates w) = add_logs l w
    /\ forallb (fun r => negb (is_download r)) l = true.
Proof.
  rewrite check_component_run.
  destruct (Dict.get name config) as [cc|];
    [|exists []; rewrite add_logs_nil; split; reflexivity].
  destruct (read_version os json_loads (version_file name) (fs w)) as [cur|e];
    [|exists []; rewrite add_logs_nil; split; reflexivity].
  cbv zeta.
  exists (latest_reqs up (source_url cc) (default true (use_releases cc))).
  split; [|apply latest_reqs_no_download].
  destruct (latest_of up (source_url cc) (default true (use_releases cc))) as [li|];
    [|reflexivity].
  destruct (current_hash cur (version_key li)); reflexivity.
Qed.

Lemma check_each_frame names updates w :
  exists l,
    snd (check_each os config up json_loads names updates w) = add_logs l w
    /\ forallb (fun r => negb (is_download r)) l = true.
Proof.
  revert updates w. induction names as [|n names IH]; intros updates w.
  - exists []. rewrite add_logs_nil. split; reflexivity.
  - cbn [check_each]. unfold bind.
    destruct (check_component_frame n updates w) as (l1 & Hw1 & Hl1).
    destruct (check_component os config up json_loads n updates w) as [[u1|e] w1];
      simpl in Hw1; subst w1.
    + destruct (IH u1 (add_logs l1 w)) as (l2 & Hw2 & Hl2).
      exists (l1 ++ l2)%list. rewrite Hw2, add_logs_app. split; [reflexivity|].
      rewrite forallb_app, Hl1, Hl2. reflexivity.
    + exists l1. split; [reflexivity|exact Hl1].
Qed.

(** C6. Whatever the configuration, the upstream and the files on disk,
    [check_for_updates] leaves every file as it was (none created, changed
    or deleted, [version.json] included), requests no file and does not
    read the clock: it only adds release and commit lookups to the log. *)
Theorem check_for_updates_read_only w :
  exists l,
    fs (snd (check_for_updates os config up json_loads w)) = fs w
    /\ ticks (snd (check_for_updates os config up json_loads w)) = ticks w
    /\ log (snd (check_for_updates os config up json_loads w)) = (log w ++ l)%list
    /\ forallb (fun r => negb (is_download r)) l = true.
Proof.
  unfold check_for_updates.
  destruct (check_each_frame (Dict.keys config) [] w) as (l & -> & Hl).
  exists l. repeat split. exact Hl.
Qed.

Lemma check_each_reports name cc li names updates w m w' :
  Dict.get name config = Some cc ->
  fs w !! canon os (version_file name) = None ->
  latest_of up (source_url cc) (default true (use_releases cc)) = Some li ->
  check_each os config up json_loads names updates w = (Ret m, w') ->
  name ∈ names
  \/ Dict.get name updates
     = Some {| current := JStr "N/A"; latest := latest_version li; url := source_url cc |} ->
  Dict.get name m
  = Some {| current := JStr "N/A"; latest := latest_version li; url := source_url cc |}.
Proof.
  intros Hcfg Hfs Hli. revert updates w Hfs.
  induction names as [|n names IH]; intros updates w Hfs Hrun Hin.
  - injection Hrun as <- _. destruct Hin as [Hin|Hin]; [inversion Hin|exact Hin].
  - cbn [check_each] in Hrun. unfold bind in Hrun.
    rewrite check_component_run in Hrun.
    destruct (decide (n = name)) as [->|Hne].
    + rewrite Hcfg in Hrun. unfold read_version, read_lookup in Hrun.
      rewrite version_file_nonempty in Hrun.
      destruct (open_read_error os (version_file name)); [discriminate|].
      rewrite Hfs in Hrun. cbn [decode_record] in Hrun. cbv zeta in Hrun.
      rewrite Hli in Hrun. cbn [current_hash eq_str negb or_na] in Hrun.
      refine (IH _ _ _ Hrun _); [exact Hfs|]. right. apply dict_get_set_eq.
    + assert (Hin' : forall u,
                Dict.get name u = Dict.get name updates ->
                name ∈ names
                \/ Dict.get name u
                   = Some {| current := JStr "N/A"; latest := latest_version li;
                             url := source_url cc |}).
      { intros u Hu. destruct Hin as [Hin|Hin].
        - apply elem_of_cons in Hin as [Heq|Hin]; [congruence|left; exact Hin].
        - right. rewrite Hu. exact Hin. }
      destruct (Dict.get n config) as [cc'|]; [|discriminate].
      destruct (read_version os json_loads (version_file n) (fs w)) as [cur|e];
        [|discriminate].
      cbv zeta in Hrun.
      destruct (latest_of up (source_url cc') (default true (use_releases cc'))) as [li'|].
      * destruct (current_hash cur (version_key li')) as [h|e]; [|discriminate].
        refine (IH _ _ _ Hrun _); [exact Hfs|]. apply Hin'.
        destruct (negb (eq_str h (latest_version li'))); [|reflexivity].
        apply dict_get_set_ne. congruence.
      * refine (IH _ _ _ Hrun _); [exact Hfs|]. apply Hin'. reflexivity.
Qed.

(** C8 (amended). When [check_for_updates] returns, every configured
    component that has no [version.json] and whose latest revision can be
    resolved is in the returned dictionary, with "N/A" as its current
    version, the resolved identifier as its latest one and its source URL. *)
Theorem check_reports_missing_record name cc li w m w' :
  check_for_updates os config up json_loads w = (Ret m, w') ->
  Dict.get name config = Some cc ->
  fs w !! canon os (version_file name) = None ->
  fst (resolve_latest up (source_url cc) (default true (use_releases cc)) w)
    = Ret (Some li) ->
  Dict.get name m
  = Some {| current := JStr "N/A"; latest := latest_version li; url := source_url cc |}.
Proof.
  intros Hrun Hcfg Hfs Hres.
  rewrite resolve_latest_run in Hres. injection Hres as Hli.
  eapply check_each_reports; eauto.
  left. eapply dict_get_keys, Hcfg.
Qed.

Lemma each_returns_length (update : string -> M bool) names w bs w' :
  each_returns update names w bs w' -> length bs = length names.
Proof. induction 1; simpl; congruence. Qed.

Lemma update_each_iff names results w rs w' :
  update_each' names results w = (Ret rs, w')
  <-> exists bs,
        each_returns update_component' names w bs w'
        /\ rs = fold_left (fun d nb => Dict.set nb.1 nb.2 d) (zip names bs) results.
Proof.
  revert results w. induction names as [|n names IH]; intros results w.
  - split.
    + intros [= <- <-]. exists []. split; [constructor|reflexivity].
    + intros (bs & Hbs & ->). inversion Hbs; subst. reflexivity.
  - cbn [update_each]. unfold bind. split.
    + destruct (update_component' n w) as [[b|e] w1] eqn:Hn; [|discriminate].
      intros Hrest. apply IH in Hrest as (bs & Hbs & ->).
      exists (b :: bs). split; [econstructor; eauto|reflexivity].
    + intros (bs & Hbs & ->). inversion Hbs as [|? ? ? b w1 bs' ? Hn Hrest]; subst.
      rewrite Hn. apply IH. exists bs'. split; [exact Hrest|reflexivity].
Qed.

Lemma keys_app {V} (d1 d2 : list (string * V)) :
  Dict.keys (d1 ++ d2) = (Dict.keys d1 ++ Dict.keys d2)%list.
Proof. unfold Dict.keys. apply map_app. Qed.

Lemma fold_set_fresh (names : list string) (bs : list bool) acc :
  NoDup names ->
  length bs = length names ->
  (forall n, n ∈ names -> n ∉ Dict.keys acc) ->
  fold_left (fun d nb => Dict.set nb.1 nb.2 d) (zip names bs) acc
  = (acc ++ zip names bs)%list.
Proof.
  revert bs acc. induction names as [|n names IH]; intros bs acc Hnd Hlen Hfresh.
  - simpl. rewrite app_nil_r. reflexivity.
  - destruct bs as [|b bs]; [discriminate|].
    apply NoDup_cons in Hnd as [Hn Hnd].
    cbn [zip zip_with fold_left fst snd].
    rewrite dict_set_fresh by (apply Hfresh, elem_of_cons; left; reflexivity).
    rewrite IH; [rewrite <- app_assoc; reflexivity|exact Hnd|simpl in Hlen; lia|].
    intros m Hm. rewrite keys_app. intros Hin.
    apply elem_of_app in Hin as [Hin|Hin].
    + revert Hin. apply Hfresh, elem_of_cons. right. exact Hm.
    + simpl in Hin. apply list_elem_of_singleton in Hin. subst. contradiction.
Qed.


End AllComponents.

(** ** The download URL *)

Lemma find_asset_url_first wanted (al pre post : list asset) a :
  al = (pre ++ a :: post)%list ->
  name a = wanted ->
  (forall x, x ∈ pre -> name x <> wanted) ->
  find_asset_url wanted al = Some (browser_download_url a).
Proof.
  intros -> Ha Hpre. induction pre as [|x pre IH]; simpl.
  - rewrite Ha, String.eqb_refl. reflexivity.
  - assert (Hx : name x <> wanted) by (apply Hpre, elem_of_cons; left; reflexivity).
    apply String.eqb_neq in Hx. rewrite Hx. apply IH.
    intros y Hy. apply Hpre, elem_of_cons. right. exact Hy.
Qed.

Lemma find_asset_url_none wanted (al : list asset) :
  (forall x, x ∈ al -> name x <> wanted) ->
  find_asset_url wanted al = None.
Proof.
  intros Hal. induction al as [|x al IH]; simpl; [reflexivity|].
  assert (Hx : name x <> wanted) by (apply Hal, elem_of_cons; left; reflexivity).
  apply String.eqb_neq in Hx. rewrite Hx. apply IH.
  intros y Hy. apply Hal, elem_of_cons. right. exact Hy.
Qed.

(** C7 (amended). For a release, the download URL of a file is the download
    URL of the first asset named like the basename of the source path when
    that URL is not empty; when it is empty, or when no asset has that
    name, it is the raw URL made of the repository URL, the tag and the
    source path.  For a commit it is the raw URL made of the repository
    URL, the full SHA and the source path, whatever the assets. *)
Theorem download_url_rule repo_url source_path :
  (forall r pre a post,
     assets r = (pre ++ a :: post)%list ->
     name a = PyStr.basename source_path ->
     (forall x, x ∈ pre -> name x <> PyStr.basename source_path) ->
     (browser_download_url a <> EmptyString ->
      download_url repo_url (Release r) source_path = browser_download_url a)
     /\ (browser_download_url a = EmptyString ->
         download_url repo_url (Release r) source_path
         = repo_url +:+ "/raw/" +:+ tag_name r +:+ "/" +:+ source_path))
  /\ (forall r,
        (forall x, x ∈ assets r -> name x <> PyStr.basename source_path) ->
        download_url repo_url (Release r) source_path
        = repo_url +:+ "/raw/" +:+ tag_name r +:+ "/" +:+ source_path)
  /\ (forall c,
        download_url repo_url (Commit c) source_path
        = repo_url +:+ "/raw/" +:+ sha c +:+ "/" +:+ source_path).
Proof.
  split; [|split].
  - intros r pre a post Hassets Ha Hpre. unfold download_url.
    rewrite (find_asset_url_first _ _ _ _ _ Hassets Ha Hpre).
    split; intros Hu.
    + apply String.eqb_neq in Hu. rewrite Hu. reflexivity.
    + rewrite Hu. reflexivity.
  - intros r Hnone. unfold download_url.
    rewrite (find_asset_url_none _ _ Hnone). reflexivity.
  - reflexivity.
Qed.

(** ** The theorems on the example inputs *)

Lemma update_component_twice_witness :
  exists w2 l,
    Ex.update_component "plain" (snd (Ex.update_component "plain" Ex.w0)) = (Ret true, w2)
    /\ fs w2 = fs (snd (Ex.update_component "plain" Ex.w0))
    /\ ticks w2 = ticks (snd (Ex.update_component "plain" Ex.w0))
    /\ log w2 = (log (snd (Ex.update_component "plain" Ex.w0)) ++ l)%list
    /\ forallb (fun r => negb (is_download r)) l = true
    /\ fst (_get_current_version Ex.os Ex.json_loads "plain" w2)
       = fst (_get_current_version Ex.os Ex.json_loads "plain"
                (snd (Ex.update_component "plain" Ex.w0))).
Proof.
  apply (update_component_twice Ex.os Ex.config Ex.up Ex.json_loads Ex.json_dumps
           Ex.sha256_hexdigest Ex.isoformat_now "plain" Ex.w0).
  vm_compute. reflexivity.
Defined.



(** The same with the destination "./version.json", which no comparison of
    path strings would find. *)
Example dot_destination_overwrites_record :
  let run := update_component Ex.os ExMore.config_alias_dot Ex.up Ex.json_loads
               Ex.json_dumps Ex.sha256_hexdigest Ex.isoformat_now "chart" Ex.w_installed in
  dest_path "chart" {| source := "a.js"; destination := "./version.json" |}
    <> version_file "chart"
  /\ fst run = Ret false
  /\ fs (snd run) !! canon Ex.os (version_file "chart")
     = Some (FBytes "content of https://github.com/o/chart/raw/a1b2c3d4e5f60718/a.js").
Proof. vm_compute. repeat split. discriminate. Qed.

(** Errors of the operating system are not caught.  A component with an
    empty name downloads its files and then fails to create its directory;
    an empty destination is the directory of the component and cannot be
    opened; a file without a directory part fails before it is written.  In
    each case the request was sent, and no record is written. *)
Example unwritable_components_raise :
  let update := update_component Ex.os ExMore.config_unwritable Ex.up Ex.json_loads
                  Ex.json_dumps Ex.sha256_hexdigest Ex.isoformat_now in
  let flat := update_component Ex.os ExMore.config_flat Ex.up Ex.json_loads
                Ex.json_dumps Ex.sha256_hexdigest Ex.isoformat_now in
  fst (update EmptyString Ex.w0) = Raise FileNotFoundError
  /\ dom (fs (snd (update EmptyString Ex.w0))) = {[ "sub/p.js" ]}
  /\ fst (update "nodest" Ex.w0) = Raise IsADirectoryError
  /\ fs (snd (update "nodest" Ex.w0)) = ∅
  /\ fst (flat EmptyString Ex.w0) = Raise FileNotFoundError
  /\ fs (snd (flat EmptyString Ex.w0)) = ∅
  /\ log (snd (flat EmptyString Ex.w0))
     = [ReqCommit "https://api.github.com/repos/o/plain/commits/master";
        ReqFile "https://github.com/o/plain/raw/0123456789abcdef/p.js"].
Proof. vm_compute. repeat split. Qed.

Lemma update_component_no_op_witness :
  (Ex.update_component "card" Ex.w_installed
   = (Ret true,
      add_logs [ReqRelease "https://api.github.com/repos/o/card/releases/latest"]
        Ex.w_installed)
   /\ fs (add_logs [ReqRelease "https://api.github.com/repos/o/card/releases/latest"]
            Ex.w_installed) = fs Ex.w_installed
   /\ ticks (add_logs [ReqRelease "https://api.github.com/repos/o/card/releases/latest"]
               Ex.w_installed) = ticks Ex.w_installed
   /\ exists l,
        log (add_logs [ReqRelease "https://api.github.com/repos/o/card/releases/latest"]
               Ex.w_installed) = (log Ex.w_installed ++ l)%list
        /\ forallb (fun r => negb (is_download r)) l = true)
  /\ eq_str None (latest_version (Release Ex.card_release)) = false.
Proof.
  split.
  - refine (proj1 (update_component_no_op Ex.os Ex.config Ex.up Ex.json_loads Ex.json_dumps
                     Ex.sha256_hexdigest Ex.isoformat_now "card" Ex.card_cc
                     (Some (JObj [("version", JStr "v2.0")]))
                     (Release Ex.card_release) (Some (JStr "v2.0")) Ex.w_installed
                     _ _ _ _ _) _);
      vm_compute; reflexivity.
  - refine (proj1 (proj2 (update_component_no_op Ex.os Ex.config Ex.up Ex.json_loads
                            Ex.json_dumps Ex.sha256_hexdigest Ex.isoformat_now "card"
                            Ex.card_cc None (Release Ex.card_release) None Ex.w0
                            (snd (resolve_latest Ex.up (source_url Ex.card_cc)
                                    (default true (use_releases Ex.card_cc)) Ex.w0))
                            _ _ _ _) _));
      try (vm_compute; reflexivity).
    left. reflexivity.
Defined.

Lemma get_latest_commit_fallback_witness :
  _get_latest_commit Ex.up "https://github.com/o/chart" "master" Ex.w0
  = (Ret (Some Ex.chart_commit),
     add_logs [ReqCommit "https://api.github.com/repos/o/chart/commits/master";
               ReqCommit "https://api.github.com/repos/o/chart/commits/main"] Ex.w0)
  /\ _get_latest_commit Ex.up "https://github.com/o/chart" "develop" Ex.w0
     = (Ret None,
        add_logs [ReqCommit "https://api.github.com/repos/o/chart/commits/develop"] Ex.w0).
Proof.
  destruct (get_latest_commit_fallback Ex.up "https://github.com/o/chart"
              "o" "chart" [] Ex.w0 eq_refl) as [Hmaster Hother].
  split.
  - apply Hmaster. reflexivity.
  - apply Hother; [discriminate|reflexivity].
Defined.

Lemma release_lookup_falls_back_witness :
  (exists l,
     log (snd (Ex.update_component "plain" Ex.w0))
     = (log (add_logs [ReqRelease "https://api.github.com/repos/o/plain/releases/latest";
                       ReqCommit "https://api.github.com/repos/o/plain/commits/master"]
               Ex.w0)
        ++ ReqFile "https://github.com/o/plain/raw/0123456789abcdef/p.js" :: l)%list)
  /\ (forall w', Ex.update_component "plain" Ex.w0 = (Ret true, w') ->
        exists d,
          fs w' !! canon Ex.os (version_file "plain") = Some (FJson (JObj d))
          /\ Dict.get "version" d = Some (JStr "01234567")
          /\ Dict.get "commit_hash" d = Some (JStr "01234567"))
  /\ Ex.update_component "broken" Ex.w0 = (Ret false, Ex.w0).
Proof.
  pose proof (release_lookup_falls_back Ex.os Ex.config Ex.up Ex.json_loads Ex.json_dumps
                Ex.sha256_hexdigest Ex.isoformat_now "plain" Ex.plain_cc None Ex.w0
                eq_refl ltac:(discriminate) ltac:(vm_compute; reflexivity)) as [Hplain _].
  pose proof (release_lookup_falls_back Ex.os Ex.config Ex.up Ex.json_loads Ex.json_dumps
                Ex.sha256_hexdigest Ex.isoformat_now "broken"
                {| source_url := "nowhere";
                   files := [ {| source := "x.js"; destination := "x.js" |} ];
                   use_releases := None |} None Ex.w0
                eq_refl ltac:(discriminate) ltac:(vm_compute; reflexivity)) as [_ Hbroken].
  specialize (Hplain "o" "plain" [] eq_refl eq_refl).
  destruct Hplain as [Hfirst Hrecord].
  split; [exact (Hfirst _ _ eq_refl)|]. split; [exact Hrecord|].
  apply Hbroken. vm_compute. lia.
Defined.

(** The release lookup of "plain" fails, its commit lookup succeeds, and
    the update ends with a record under "commit_hash". *)
Example update_plain_by_commit :
  fst (Ex.update_component "plain" Ex.w0) = Ret true
  /\ log (snd (Ex.update_component "plain" Ex.w0))
     = [ReqRelease "https://api.github.com/repos/o/plain/releases/latest";
        ReqCommit "https://api.github.com/repos/o/plain/commits/master";
        ReqFile "https://github.com/o/plain/raw/0123456789abcdef/p.js"]
  /\ fst (_get_current_version Ex.os Ex.json_loads "plain" (snd (Ex.update_component "plain" Ex.w0)))
     = Ret (Some (JObj [("version", JStr "01234567");
                        ("source_url", JStr "https://github.com/o/plain");
                        ("last_updated", JStr "2024-05-01T10:00:00");
                        ("commit_hash", JStr "01234567");
                        ("files", JList [JStr "plain/p.js"]);
                        ("file_hashes",
                         JObj [("plain/p.js",
                                JStr "sha256 of content of https://github.com/o/plain/raw/0123456789abcdef/p.js")])])).
Proof. vm_compute. repeat split. Qed.

Lemma download_url_rule_witness :
  download_url "https://github.com/o/card" (Release Ex.card_release) "dist/card.js"
  = "https://dl.example/card.js"
  /\ download_url "https://github.com/o/card" (Release Ex.card_release) "dist/card.css"
     = "https://github.com/o/card/raw/v2.0/dist/card.css".
Proof.
  destruct (download_url_rule "https://github.com/o/card" "dist/card.js")
    as (Hfound & _ & _).
  destruct (download_url_rule "https://github.com/o/card" "dist/card.css")
    as (_ & Hnone & _).
  split.
  - refine (proj1 (Hfound Ex.card_release
                     [ {| name := "readme.txt";
                          browser_download_url := "https://dl.example/readme.txt" |} ]
                     {| name := "card.js";
                        browser_download_url := "https://dl.example/card.js" |}
                     [] eq_refl eq_refl _) _).
    + intros x Hx. apply list_elem_of_singleton in Hx. subst x. discriminate.
    + discriminate.
  - apply Hnone. intros x Hx. simpl in Hx.
    apply elem_of_cons in Hx as [->|Hx]; [discriminate|].
    apply list_elem_of_singleton in Hx. subst x. discriminate.
Defined.

(** C7, as stated, fails for an asset with the wanted name and an empty
    download URL: the raw URL is used, not the URL of the asset. *)
Lemma download_url_empty_asset_url :
  find_asset_url (PyStr.basename "dist/card.js") (assets Ex.odd_release)
  = Some EmptyString
  /\ download_url "https://github.com/o/card" (Release Ex.odd_release) "dist/card.js"
     = "https://github.com/o/card/raw/v1/dist/card.js"
  /\ download_url "https://github.com/o/card" (Release Ex.odd_release) "dist/card.js"
     <> EmptyString.
Proof. vm_compute. repeat split. discriminate. Qed.

Lemma check_reports_missing_record_witness :
  Dict.get "card"
    [("card", {| current := JStr "N/A"; latest := "v2.0";
                 url := "https://github.com/o/card" |});
     ("chart", {| current := JStr "N/A"; latest := "a1b2c3d4";
                  url := "https://github.com/o/chart" |});
     ("plain", {| current := JStr "N/A"; latest := "01234567";
                  url := "https://github.com/o/plain" |})]
  = Some {| current := JStr "N/A";
            latest := latest_version (Release Ex.card_release);
            url := source_url Ex.card_cc |}.
Proof.
  apply (check_reports_missing_record Ex.os Ex.config Ex.up Ex.json_loads "card" Ex.card_cc
           (Release Ex.card_release) Ex.w0 _
           (snd (check_for_updates Ex.os Ex.config Ex.up Ex.json_loads Ex.w0)));
    vm_compute; reflexivity.
Defined.

(** C8, as stated, fails when nothing can be resolved: "card" is configured
    and has no [version.json], yet the dictionary returned is empty. *)
Lemma check_omits_unresolved :
  Dict.get "card" Ex.config = Some Ex.card_cc
  /\ fs Ex.w0 !! canon Ex.os (version_file "card") = None
  /\ fst (check_for_updates Ex.os Ex.config Ex.down Ex.json_loads Ex.w0) = Ret []
  /\ forall m, fst (check_for_updates Ex.os Ex.config Ex.down Ex.json_loads Ex.w0) = Ret m ->
               Dict.get "card" m = None.
Proof.
  vm_compute. repeat split. intros m [= <-]. reflexivity.
Qed.


Lemma version_record_keys_witness :
  exists cc cur li h,
    Dict.get "plain" Ex.config = Some cc
    /\ fst (_get_current_version Ex.os Ex.json_loads "plain" Ex.w0) = Ret cur
    /\ fst (resolve_latest Ex.up (source_url cc) (default true (use_releases cc)) Ex.w0)
       = Ret (Some li)
    /\ current_hash cur (version_key li) = Ret h
    /\ ((eq_str h (latest_version li) = true
         /\ fs (snd (Ex.update_component "plain" Ex.w0)) = fs Ex.w0
         /\ ticks (snd (Ex.update_component "plain" Ex.w0)) = ticks Ex.w0)
        \/ (eq_str h (latest_version li) = false
            /\ ticks (snd (Ex.update_component "plain" Ex.w0)) = S (ticks Ex.w0)
            /\ exists d,
                 fs (snd (Ex.update_component "plain" Ex.w0))
                   !! canon Ex.os (version_file "plain") = Some (FJson (JObj d))
                 /\ Dict.get "version" d = Some (JStr (latest_version li))
                 /\ Dict.get "commit_hash" d
                    = match li with
                      | Commit _ => Some (JStr (latest_version li))
                      | Release _ => None
                      end
                 /\ _get_current_version Ex.os Ex.json_loads "plain"
                      (snd (Ex.update_component "plain" Ex.w0))
                    = (Ret (Some (JObj d)), snd (Ex.update_component "plain" Ex.w0))
                 /\ current_hash (Some (JObj d)) (version_key li)
                    = Ret (Some (JStr (latest_version li))))).
Proof.
  apply (version_record_keys Ex.os Ex.config Ex.up Ex.json_loads Ex.json_dumps
           Ex.sha256_hexdigest Ex.isoformat_now "plain" Ex.w0).
  vm_compute. reflexivity.
Defined.

(** * Further properties of the code *)

(** ** The resolver ([_get_latest_release], [_get_latest_commit]) *)

Lemma count_char_app c s t :
  count_char c (s +:+ t) = count_char c s + count_char c t.
Proof. induction s as [|a s IH]; simpl; [reflexivity|]. rewrite IH. lia. Qed.

Lemma startswith_app p t : PyStr.startswith p (p +:+ t) = true.
Proof. induction p as [|a p IH]; simpl; [reflexivity|]. rewrite Ascii.eqb_refl. exact IH. Qed.

Lemma startswith_count c p s :
  PyStr.startswith p s = true -> count_char c p <= count_char c s.
Proof.
  revert s. induction p as [|a p IH]; intros s H; simpl; [lia|].
  destruct s as [|b s]; simpl in H; [discriminate|].
  destruct (Ascii.eqb a b) eqn:E; [|discriminate].
  apply Ascii.eqb_eq in E. subst b. simpl. specialize (IH s H). lia.
Qed.

Lemma replace_from_absent c old new s :
  count_char c s < count_char c old ->
  PyStr.replace_from old new 0 s = s.
Proof.
  induction s as [|a s IH]; intros Hlt; [reflexivity|].
  cbn [PyStr.replace_from].
  destruct (PyStr.startswith old (String a s)) eqn:E.
  - apply (startswith_count c) in E. lia.
  - f_equal. apply IH. simpl in Hlt. lia.
Qed.

Lemma replace_from_skip old new u t :
  PyStr.replace_from old new (String.length u) (u +:+ t) = PyStr.replace_from old new 0 t.
Proof. induction u as [|a u IH]; [reflexivity|]. exact IH. Qed.

Lemma replace_prefix c a old new t :
  count_char c t < count_char c (String a old) ->
  PyStr.replace (String a old) new (String a old +:+ t) = new +:+ t.
Proof.
  intros Hlt. unfold PyStr.replace.
  change (String a old +:+ t) with (String a (old +:+ t)).
  cbn [PyStr.replace_from].
  change (String a (old +:+ t)) with (String a old +:+ t).
  rewrite startswith_app.
  replace (String.length (String a old) - 1) with (String.length old) by (simpl; lia).
  rewrite replace_from_skip, (replace_from_absent c) by exact Hlt. reflexivity.
Qed.

Lemma rev_app_append s t u : String.rev_app s t +:+ u = String.rev_app s (t +:+ u).
Proof. revert t. induction s as [|a s IH]; intros t; [reflexivity|]. simpl. apply IH. Qed.

Lemma split_from_last sep cur s :
  count_char sep s = 0 ->
  PyStr.split_from sep cur s = [String.rev cur +:+ s].
Proof.
  revert cur. induction s as [|a s IH]; intros cur H0.
  - simpl. f_equal. unfold String.rev. rewrite rev_app_append. reflexivity.
  - simpl in H0. cbn [PyStr.split_from].
    destruct (Ascii.eqb a sep); [discriminate|].
    rewrite IH by exact H0. f_equal.
    unfold String.rev. cbn [String.rev_app]. rewrite !rev_app_append. reflexivity.
Qed.

Lemma split_from_piece sep cur s rest :
  count_char sep s = 0 ->
  PyStr.split_from sep cur (s +:+ String sep rest)
  = (String.rev cur +:+ s) :: PyStr.split_from sep EmptyString rest.
Proof.
  revert cur. induction s as [|a s IH]; intros cur H0.
  - simpl. rewrite Ascii.eqb_refl. f_equal.
    unfold String.rev. rewrite rev_app_append. reflexivity.
  - simpl in H0. change (String a s +:+ String sep rest) with (String a (s +:+ String sep rest)).
    cbn [PyStr.split_from].
    destruct (Ascii.eqb a sep); [discriminate|].
    rewrite IH by exact H0. f_equal.
    unfold String.rev. cbn [String.rev_app]. rewrite !rev_app_append. reflexivity.
Qed.

(** X3. For an owner and a repository name without a slash, the URL
    "https://github.com/<owner>/<repo>" is split into exactly these two
    parts; [_get_latest_release] then asks for
    ".../repos/<owner>/<repo>/releases/latest" once and returns the answer,
    and [_get_latest_commit] first asks for
    ".../repos/<owner>/<repo>/commits/<branch>". *)
Theorem github_url_parts owner repo :
  count_char "/" owner = 0 ->
  count_char "/" repo = 0 ->
  repo_parts ("https://github.com/" +:+ owner +:+ "/" +:+ repo) = [owner; repo]
  /\ (forall up w,
        _get_latest_release up ("https://github.com/" +:+ owner +:+ "/" +:+ repo) w
        = (Ret (release_at up ("https://api.github.com/repos/" +:+ owner +:+ "/"
                                +:+ repo +:+ "/releases/latest")),
           add_logs [ReqRelease ("https://api.github.com/repos/" +:+ owner +:+ "/"
                                  +:+ repo +:+ "/releases/latest")] w))
  /\ (forall up branch w,
        exists l,
          log (snd (_get_latest_commit up
                      ("https://github.com/" +:+ owner +:+ "/" +:+ repo) branch w))
          = (log w ++ ReqCommit ("https://api.github.com/repos/" +:+ owner +:+ "/"
                                  +:+ repo +:+ "/commits/" +:+ branch) :: l)%list).
Proof.
  intros Ho Hr.
  assert (Hparts : repo_parts ("https://github.com/" +:+ owner +:+ "/" +:+ repo)
                   = [owner; repo]).
  { unfold repo_parts.
    rewrite (replace_prefix "/"%char).
    - unfold PyStr.split.
      change (EmptyString +:+ owner +:+ "/" +:+ repo) with (owner +:+ String "/" repo).
      rewrite split_from_piece by exact Ho.
      rewrite split_from_last by exact Hr. reflexivity.
    - rewrite count_char_app.
      change (count_char "/" ("/" +:+ repo)) with (1 + count_char "/" repo).
      rewrite Ho, Hr. simpl. lia. }
  split; [exact Hparts|]. split.
  - intros up w. rewrite get_latest_release_run.
    unfold release_of, release_reqs. rewrite Hparts. reflexivity.
  - intros up branch w. rewrite get_latest_commit_run.
    unfold commit_reqs. rewrite Hparts. eexists. reflexivity.
Qed.

Section ResolverEdges.

Variable os : host.
Variable config : list (string * component_config).
Variable up : upstream.
Variable json_loads : string -> option json.
Variable json_dumps : json -> string.
Variable sha256_hexdigest : string -> string.
Variable isoformat_now : nat -> string.

Local Abbreviation update_component' :=
  (update_component os config up json_loads json_dumps sha256_hexdigest isoformat_now).

Lemma short_parts_release repo_url :
  length (repo_parts repo_url) < 2 ->
  release_of up repo_url = None /\ release_reqs repo_url = [].
Proof.
  unfold release_of, release_reqs.
  destruct (repo_parts repo_url) as [|o [|r rest]]; simpl; intros H;
    [split; reflexivity|split; reflexivity|lia].
Qed.

Lemma short_parts_commit repo_url branch :
  length (repo_parts repo_url) < 2 ->
  commit_of up repo_url branch = None /\ commit_reqs up repo_url branch = [].
Proof.
  unfold commit_of, commit_reqs.
  destruct (repo_parts repo_url) as [|o [|r rest]]; simpl; intros H;
    [split; reflexivity|split; reflexivity|lia].
Qed.

(** X4. A source URL with fewer than two parts (the test of lines 55 and
    73) makes both lookups answer [None] without sending any request; the
    update of a component with such a source, whose stored record can be
    read, returns [False] and leaves the world as it was. *)
Theorem invalid_repository_reference repo_url w :
  length (repo_parts repo_url) < 2 ->
  _get_latest_release up repo_url w = (Ret None, w)
  /\ (forall branch, _get_latest_commit up repo_url branch w = (Ret None, w))
  /\ (forall name cc cur,
        Dict.get name config = Some cc ->
        source_url cc = repo_url ->
        _get_current_version os json_loads name w = (Ret cur, w) ->
        update_component' name w = (Ret false, w)).
Proof.
  intros Hshort.
  destruct (short_parts_release _ Hshort) as [Hrel Hrelq].
  split; [|split].
  - rewrite get_latest_release_run, Hrel, Hrelq, add_logs_nil. reflexivity.
  - intros branch. destruct (short_parts_commit _ branch Hshort) as [Hc Hcq].
    rewrite get_latest_commit_run, Hc, Hcq, add_logs_nil. reflexivity.
  - intros name cc cur Hcfg Hurl Hcur.
    rewrite get_current_version_run in Hcur. injection Hcur as Hcur.
    destruct (short_parts_commit _ "master" Hshort) as [Hc Hcq].
    rewrite update_component_run, Hcfg, Hcur, Hurl. cbv zeta.
    unfold latest_of, latest_reqs. rewrite Hrel, Hrelq, Hc, Hcq.
    destruct (default true (use_releases cc)); simpl; rewrite add_logs_nil; reflexivity.
Qed.

(** X5. [_get_latest_commit] always returns, after at most two requests
    (at most one when the branch is not "master"), all of them commit
    lookups; when the lookup of the branch asked for succeeds, that commit
    is returned and it was the only request. *)
Theorem get_latest_commit_requests repo_url branch w :
  exists oc l,
    _get_latest_commit up repo_url branch w = (Ret oc, add_logs l w)
    /\ length l <= 2
    /\ (branch <> "master" -> length l <= 1)
    /\ (forall r, r ∈ l -> exists u, r = ReqCommit u)
    /\ (forall owner repo rest c,
          repo_parts repo_url = owner :: repo :: rest ->
          commit_at up (commit_api_url owner repo branch) = Some c ->
          oc = Some c /\ l = [ReqCommit (commit_api_url owner repo branch)]).
Proof.
  exists (commit_of up repo_url branch), (commit_reqs up repo_url branch).
  split; [apply get_latest_commit_run|].
  unfold commit_of, commit_reqs.
  split; [|split; [|split]].
  - destruct (repo_parts repo_url) as [|o [|r rest]]; simpl; try lia.
    destruct (commit_at up _); simpl; [lia|].
    destruct (decide _); simpl; lia.
  - intros Hne. destruct (repo_parts repo_url) as [|o [|r rest]]; simpl; try lia.
    destruct (commit_at up _); simpl; [lia|].
    destruct (decide _); [contradiction|simpl; lia].
  - intros x Hx. destruct (repo_parts repo_url) as [|o [|r rest]];
      [inversion Hx|inversion Hx|].
    apply elem_of_cons in Hx as [->|Hx]; [eauto|].
    destruct (commit_at up _); [inversion Hx|].
    destruct (decide _); [|inversion Hx].
    apply list_elem_of_singleton in Hx. eauto.
  - intros owner repo rest c Hparts Hc. rewrite Hparts, Hc. split; reflexivity.
Qed.

Lemma take_length n s : String.length (PyStr.take n s) = Nat.min n (String.length s).
Proof.
  unfold PyStr.take. revert s. induction n as [|n IH]; intros [|a s]; simpl; auto.
Qed.

Lemma take_prefix n s : exists rest, s = PyStr.take n s +:+ rest.
Proof.
  unfold PyStr.take. revert s. induction n as [|n IH]; intros [|a s]; simpl.
  - exists EmptyString. reflexivity.
  - exists (String a s). reflexivity.
  - exists EmptyString. reflexivity.
  - destruct (IH s) as [rest Hrest]. exists rest.
    change (String a (String.substring 0 n s) +:+ rest)
      with (String a (String.substring 0 n s +:+ rest)).
    rewrite <- Hrest. reflexivity.
Qed.

(** X6. The identifier of a commit is the start of its SHA, eight
    characters long or the whole SHA when that is shorter.  A component
    installed at one commit is therefore taken as current when the latest
    commit is another one with the same first eight characters: the update
    returns [True] in the world left by the lookups. *)
Theorem commit_identifier_prefix c :
  String.length (latest_version (Commit c)) = Nat.min 8 (String.length (sha c))
  /\ (exists rest, sha c = latest_version (Commit c) +:+ rest)
  /\ (forall name cc d c_old w w1,
        Dict.get name config = Some cc ->
        _get_current_version os json_loads name w = (Ret (Some (JObj d)), w) ->
        resolve_latest up (source_url cc) (default true (use_releases cc)) w
          = (Ret (Some (Commit c)), w1) ->
        Dict.get "commit_hash" d = Some (JStr (latest_version (Commit c_old))) ->
        PyStr.take 8 (sha c_old) = PyStr.take 8 (sha c) ->
        update_component' name w = (Ret true, w1)).
Proof.
  split; [apply take_length|]. split; [apply take_prefix|].
  intros name cc d c_old w w1 Hcfg Hcur Hres Hd Hsame.
  rewrite get_current_version_run in Hcur. injection Hcur as Hcur.
  rewrite resolve_latest_run in Hres. injection Hres as Hli Hw1.
  rewrite update_component_run, Hcfg, Hcur. cbv zeta.
  rewrite Hli, Hw1, apply_latest_run.
  assert (Hh : current_hash (Some (JObj d)) (version_key (Commit c))
               = Ret (Some (JStr (PyStr.take 8 (sha c))))).
  { unfold current_hash, version_key. destruct d as [|p d]; [discriminate|].
    cbn [truthy]. rewrite Hd. cbn [latest_version]. rewrite Hsame. reflexivity. }
  rewrite Hh. cbn [eq_str latest_version]. rewrite String.eqb_refl. reflexivity.
Qed.

End ResolverEdges.

(** ** Downloads and the record they leave *)

Section UpdateEdges.

Variable os : host.
Variable config : list (string * component_config).
Variable up : upstream.
Variable json_loads : string -> option json.
Variable json_dumps : json -> string.
Variable sha256_hexdigest : string -> string.
Variable isoformat_now : nat -> string.

Local Abbreviation update_component' :=
  (update_component os config up json_loads json_dumps sha256_hexdigest isoformat_now).
Local Abbreviation install' := (install os up json_dumps sha256_hexdigest isoformat_now).
Local Abbreviation update_all_components' :=
  (update_all_components os config up json_loads json_dumps sha256_hexdigest isoformat_now).


Lemma attempted_subset name repo_url li fl f :
  f ∈ attempted os up name repo_url li fl -> f ∈ fl.
Proof.
  induction fl as [|g fl IH]; simpl; [auto|].
  intros Hin. apply elem_of_cons in Hin as [->|Hin]; [left|].
  destruct (fetched os up name repo_url li g); [right; auto|inversion Hin].
Qed.

Lemma store_all_frame name repo_url li fl m p :
  (forall f, f ∈ fl -> canon os (dest_path name f) <> p) ->
  store_all os up name repo_url li fl m !! p = m !! p.
Proof.
  revert m. induction fl as [|g fl IH]; intros m Hne; [reflexivity|].
  rewrite store_all_cons, IH.
  - destruct (content_at up (file_url repo_url li g)); [|reflexivity].
    destruct (download_error os (dest_path name g)); [reflexivity|].
    apply lookup_insert_ne. apply Hne. left.
  - intros f Hf. apply Hne. right. exact Hf.
Qed.

Lemma store_all_keeps name repo_url li fl m p :
  is_Some (m !! p) -> is_Some (store_all os up name repo_url li fl m !! p).
Proof.
  revert m. induction fl as [|g fl IH]; intros m Hp; [exact Hp|].
  rewrite store_all_cons. apply IH.
  destruct (content_at up (file_url repo_url li g)); [|exact Hp].
  destruct (download_error os (dest_path name g)); [exact Hp|].
  destruct (decide (canon os (dest_path name g) = p)) as [->|Hne].
  - rewrite lookup_insert_eq. eauto.
  - rewrite lookup_insert_ne by exact Hne. exact Hp.
Qed.

(** The file system after one update, in the ways it can end. *)
Lemma update_component_fs name w :
  fs (snd (update_component' name w)) = fs w
  \/ exists cc li fl,
       Dict.get name config = Some cc
       /\ (forall f, f ∈ fl -> f ∈ files cc)
       /\ (fs (snd (update_component' name w))
           = store_all os up name (source_url cc) li fl (fs w)
           \/ exists v,
                fs (snd (update_component' name w))
                = <[canon os (version_file name) := v]>
                    (store_all os up name (source_url cc) li fl (fs w))).
Proof.
  rewrite update_component_run.
  destruct (Dict.get name config) as [cc|] eqn:Hcfg; [|left; reflexivity].
  destruct (read_version os json_loads (version_file name) (fs w)) as [cur|e];
    [|left; reflexivity].
  cbv zeta.
  destruct (latest_of up (source_url cc) (default true (use_releases cc))) as [li|];
    [|left; reflexivity].
  rewrite apply_latest_run.
  destruct (current_hash cur (version_key li)) as [h|e]; [|left; reflexivity].
  destruct (eq_str h (latest_version li)); [left; reflexivity|].
  right. exists cc, li, (attempted os up name (source_url cc) li (files cc)).
  split; [reflexivity|]. split; [apply attempted_subset|].
  destruct (install_fs os up json_dumps sha256_hexdigest isoformat_now name (source_url cc)
              (files cc) li
              (add_logs (latest_reqs up (source_url cc) (default true (use_releases cc))) w))
    as [->|[j ->]].
  - left. reflexivity.
  - right. eexists. reflexivity.
Qed.

(** X8. An update of a component changes no file other than the
    component's [version.json] and the files that the destinations of its
    configured files name, however it ends. *)
Theorem update_component_frame name cc w p :
  Dict.get name config = Some cc ->
  p <> canon os (version_file name) ->
  (forall f, f ∈ files cc -> canon os (dest_path name f) <> p) ->
  fs (snd (update_component' name w)) !! p = fs w !! p.
Proof.
  intros Hcfg Hvf Hdest.
  destruct (update_component_fs name w) as [->|(cc' & li & fl & Hcfg' & Hsub & Hfs)];
    [reflexivity|].
  rewrite Hcfg in Hcfg'. injection Hcfg' as <-.
  assert (Hfl : forall f, f ∈ fl -> canon os (dest_path name f) <> p)
    by (intros f Hf; auto).
  destruct Hfs as [->|[v ->]].
  - apply store_all_frame, Hfl.
  - rewrite lookup_insert_ne by congruence. apply store_all_frame, Hfl.
Qed.

Lemma update_component_keeps name w p :
  is_Some (fs w !! p) -> is_Some (fs (snd (update_component' name w)) !! p).
Proof.
  intros Hp.
  destruct (update_component_fs name w) as [->|(cc & li & fl & _ & _ & [->|[v ->]])].
  - exact Hp.
  - apply store_all_keeps, Hp.
  - destruct (decide (canon os (version_file name) = p)) as [->|Hne].
    + rewrite lookup_insert_eq. eauto.
    + rewrite lookup_insert_ne by exact Hne. apply store_all_keeps, Hp.
Qed.

(** X9. No update deletes a file: every path present before
    [update_component] or [update_all_components] runs is present after it,
    however the run ends. *)
Theorem updates_keep_files w p :
  is_Some (fs w !! p) ->
  (forall name,
     is_Some (fs (snd (update_component os config up json_loads json_dumps
                         sha256_hexdigest isoformat_now name w)) !! p))
  /\ is_Some (fs (snd (update_all_components os config up json_loads json_dumps
                         sha256_hexdigest isoformat_now w)) !! p).
Proof.
  intros Hp. split; [intros name; apply update_component_keeps, Hp|].
  unfold update_all_components.
  generalize (@nil (string * bool)). revert w Hp.
  induction (Dict.keys config) as [|n names IH]; intros w Hp results; [exact Hp|].
  cbn [update_each]. unfold bind.
  pose proof (update_component_keeps n w p Hp) as Hn.
  destruct (update_component' n w) as [[b|e] w1]; cbn [snd] in Hn.
  - apply IH, Hn.
  - exact Hn.
Qed.

(** The hashes of paths that can be opened: for each path the digest of the
    file it names, or the empty string when there is no such file. *)
Lemma hashes_of_readable m fl acc :
  (forall p, p ∈ fl -> p <> EmptyString /\ open_read_error os p = None) ->
  exists hs,
    hashes_of os json_dumps sha256_hexdigest m fl acc = Ret hs
    /\ forall p,
         Dict.get p hs
         = if decide (p ∈ fl)
           then Some (JStr (match m !! canon os p with
                            | Some c => sha256_hexdigest (file_bytes json_dumps c)
                            | None => EmptyString
                            end))
           else Dict.get p acc.
Proof.
  revert acc. induction fl as [|f fl IH]; intros acc Hok.
  - exists acc. split; [reflexivity|]. intros p.
    destruct (decide (p ∈ [])) as [Hin|_]; [inversion Hin|reflexivity].
  - cbn [hashes_of].
    destruct (Hok f ltac:(left)) as [Hne Hread].
    assert (Hf : hash_of os json_dumps sha256_hexdigest m f
                 = Ret (match m !! canon os f with
                        | Some c => sha256_hexdigest (file_bytes json_dumps c)
                        | None => EmptyString
                        end)).
    { unfold hash_of, read_lookup. apply String.eqb_neq in Hne. rewrite Hne, Hread.
      destruct (m !! canon os f); reflexivity. }
    rewrite Hf.
    destruct (IH (Dict.set f (JStr (match m !! canon os f with
                                    | Some c => sha256_hexdigest (file_bytes json_dumps c)
                                    | None => EmptyString
                                    end)) acc))
      as (hs & Hhs & Hget); [intros p Hp; apply Hok; right; exact Hp|].
    exists hs. split; [exact Hhs|]. intros p. rewrite Hget.
    destruct (decide (p ∈ fl)) as [Hin|Hnin].
    + destruct (decide (p ∈ f :: fl)) as [_|Hn]; [reflexivity|].
      exfalso. apply Hn. right. exact Hin.
    + destruct (decide (p = f)) as [->|Hne'].
      * rewrite dict_get_set_eq.
        destruct (decide (f ∈ f :: fl)) as [_|Hn]; [reflexivity|].
        exfalso. apply Hn. left.
      * rewrite dict_get_set_ne by exact Hne'.
        destruct (decide (p ∈ f :: fl)) as [Hin|_]; [|reflexivity].
        apply elem_of_cons in Hin as [?|?]; contradiction.
Qed.

Lemma version_info_fields repo_url li now updated hashes :
  exists d,
    version_info repo_url li now updated hashes = JObj d
    /\ Dict.get "source_url" d = Some (JStr repo_url)
    /\ Dict.get "last_updated" d = Some (JStr now)
    /\ Dict.get "files" d = Some (JList (JStr <$> updated))
    /\ Dict.get "file_hashes" d = Some (JObj hashes).
Proof. destruct li; eexists; repeat split. Qed.

(** A destination that was written is not the empty path. *)
Lemma fetched_nonempty name repo_url li f :
  fetched os up name repo_url li f = true -> dest_path name f <> EmptyString.
Proof.
  intros Hf. destruct (fetched_inv os up _ _ _ _ Hf) as [_ Herr].
  unfold download_error in Herr.
  destruct (makedirs_outcome os (PyStr.dirname (dest_path name f))); [discriminate|].
  unfold open_write_outcome in Herr. intros Heq. rewrite Heq in Herr. discriminate.
Qed.

(** The run of an update that has to install, finds every file served and
    meets no error of the operating system. *)
Lemma update_component_installs name cc cur li h w w1 :
  Dict.get name config = Some cc ->
  _get_current_version os json_loads name w = (Ret cur, w) ->
  resolve_latest up (source_url cc) (default true (use_releases cc)) w
    = (Ret (Some li), w1) ->
  current_hash cur (version_key li) = Ret h ->
  eq_str h (latest_version li) = false ->
  forallb (fetched os up name (source_url cc) li) (files cc) = true ->
  (forall f, f ∈ files cc -> open_read_error os (dest_path name f) = None) ->
  save_error os name = None ->
  exists hs,
    update_component' name w
    = (Ret true, after_install os up isoformat_now name (source_url cc) li (files cc) hs w1)
    /\ (forall f, f ∈ files cc ->
          Dict.get (dest_path name f) hs
          = Some (JStr (match fs (after_downloads os up name (source_url cc) li (files cc) w1)
                                !! canon os (dest_path name f) with
                        | Some c => sha256_hexdigest (file_bytes json_dumps c)
                        | None => EmptyString
                        end)))
    /\ fs w1 = fs w /\ ticks w1 = ticks w.
Proof.
  intros Hcfg Hcur Hres Hh Hne Hall Hread Hsave.
  rewrite get_current_version_run in Hcur. injection Hcur as Hcur.
  rewrite resolve_latest_run in Hres. injection Hres as Hli Hw1.
  destruct (hashes_of_readable
              (fs (after_downloads os up name (source_url cc) li (files cc) w1))
              (map (dest_path name) (files cc)) [])
    as (hs & Hhs & Hget).
  { intros p Hp. apply list_elem_of_In, in_map_iff in Hp as (f & <- & Hf).
    apply list_elem_of_In in Hf. split; [|apply Hread, Hf].
    apply (fetched_nonempty name (source_url cc) li).
    rewrite forallb_forall in Hall. apply Hall, list_elem_of_In, Hf. }
  exists hs. split; [|split; [|subst w1; split; reflexivity]].
  - rewrite update_component_run, Hcfg, Hcur. cbv zeta. rewrite Hli, Hw1.
    rewrite apply_latest_run, Hh, Hne, install_run. unfold install_result.
    destruct (downloads_result_fetched os up name (source_url cc) li (files cc) [] Hall)
      as [-> _].
    cbn [app]. rewrite Hhs, Hsave. reflexivity.
  - intros f Hf. rewrite Hget.
    destruct (decide (dest_path name f ∈ map (dest_path name) (files cc))) as [_|Hn];
      [reflexivity|].
    exfalso. apply Hn. apply list_elem_of_In, in_map, list_elem_of_In, Hf.
Qed.

(** X10. When an update has to install, every configured file is served
    and no directory or file operation fails, it returns [True]; after the
    lookups it requests each configured file once, in the configured order,
    and nothing else; every destination that does not name the file
    [version.json] holds downloaded bytes, and the clock is read once. *)
Theorem install_downloads_in_order name cc cur li h w w1 :
  Dict.get name config = Some cc ->
  _get_current_version os json_loads name w = (Ret cur, w) ->
  resolve_latest up (source_url cc) (default true (use_releases cc)) w
    = (Ret (Some li), w1) ->
  current_hash cur (version_key li) = Ret h ->
  eq_str h (latest_version li) = false ->
  forallb (fetched os up name (source_url cc) li) (files cc) = true ->
  (forall f, f ∈ files cc -> open_read_error os (dest_path name f) = None) ->
  save_error os name = None ->
  exists w',
    update_component' name w = (Ret true, w')
    /\ log w' = (log w1 ++ map (fun f => ReqFile (download_url (source_url cc) li (source f)))
                             (files cc))%list
    /\ ticks w' = S (ticks w)
    /\ forall f, f ∈ files cc ->
                 canon os (dest_path name f) <> canon os (version_file name) ->
                 exists b, fs w' !! canon os (dest_path name f) = Some (FBytes b).
Proof.
  intros Hcfg Hcur Hres Hh Hne Hall Hread Hsave.
  destruct (update_component_installs _ _ _ _ _ _ _ Hcfg Hcur Hres Hh Hne Hall Hread Hsave)
    as (hs & Hrun & _ & Hfs & Hticks).
  eexists. split; [exact Hrun|].
  unfold after_install, after_downloads. cbn [fs log ticks].
  destruct (downloads_result_fetched os up name (source_url cc) li (files cc) [] Hall)
    as [_ ->].
  repeat split.
  - congruence.
  - intros f Hf Hvf. rewrite lookup_insert_ne by congruence.
    apply store_all_written; [exact Hall|]. left. exists f. split; [exact Hf|reflexivity].
Qed.

(** X11. The record written by such an install names the source URL, the
    time read from the clock and the destinations in configured order, and
    gives for every destination (that does not name the file of the record
    itself) the SHA-256 digest of the bytes that file holds on disk after
    the run. *)
Theorem installed_record_fields name cc cur li h w w1 :
  Dict.get name config = Some cc ->
  _get_current_version os json_loads name w = (Ret cur, w) ->
  resolve_latest up (source_url cc) (default true (use_releases cc)) w
    = (Ret (Some li), w1) ->
  current_hash cur (version_key li) = Ret h ->
  eq_str h (latest_version li) = false ->
  forallb (fetched os up name (source_url cc) li) (files cc) = true ->
  (forall f, f ∈ files cc -> open_read_error os (dest_path name f) = None) ->
  save_error os name = None ->
  exists w' d hashes,
    update_component' name w = (Ret true, w')
    /\ fs w' !! canon os (version_file name) = Some (FJson (JObj d))
    /\ Dict.get "source_url" d = Some (JStr (source_url cc))
    /\ Dict.get "last_updated" d = Some (JStr (isoformat_now (ticks w)))
    /\ Dict.get "files" d = Some (JList (JStr <$> map (dest_path name) (files cc)))
    /\ Dict.get "file_hashes" d = Some (JObj hashes)
    /\ forall f, f ∈ files cc ->
                 canon os (dest_path name f) <> canon os (version_file name) ->
                 exists b,
                   fs w' !! canon os (dest_path name f) = Some (FBytes b)
                   /\ Dict.get (dest_path name f) hashes = Some (JStr (sha256_hexdigest b)).
Proof.
  intros Hcfg Hcur Hres Hh Hne Hall Hread Hsave.
  destruct (update_component_installs _ _ _ _ _ _ _ Hcfg Hcur Hres Hh Hne Hall Hread Hsave)
    as (hs & Hrun & Hget & Hfs & Hticks).
  set (w2 := after_downloads os up name (source_url cc) li (files cc) w1) in *.
  set (upd := map (dest_path name) (files cc)).
  destruct (version_info_fields (source_url cc) li (isoformat_now (ticks w1)) upd hs)
    as (d & Hd & Hsrc & Hnow & Hfiles & Hhashes).
  eexists _, d, hs. split; [exact Hrun|].
  unfold after_install. cbn [fs]. fold w2 upd. rewrite Hd.
  split; [apply lookup_insert_eq|]. split; [exact Hsrc|].
  split; [rewrite <- Hticks; exact Hnow|]. split; [exact Hfiles|].
  split; [exact Hhashes|].
  intros f Hf Hvf. rewrite lookup_insert_ne by congruence.
  assert (Hb : exists b, fs w2 !! canon os (dest_path name f) = Some (FBytes b)).
  { unfold w2, after_downloads. cbn [fs].
    destruct (downloads_result_fetched os up name (source_url cc) li (files cc) [] Hall)
      as [_ ->].
    apply store_all_written; [exact Hall|]. left. exists f. split; [exact Hf|reflexivity]. }
  destruct Hb as [b Hb]. exists b. split; [exact Hb|].
  rewrite (Hget f Hf), Hb. reflexivity.
Qed.

(** X12. A record written by a release install has no "commit_hash":
    when the next run finds no release and resolves a commit, the stored
    record never counts as current and the run installs again, whatever the
    commit. *)
Theorem release_record_forces_commit_install name cc r now0 updated0 hashes0 c w w1 :
  Dict.get name config = Some cc ->
  _get_current_version os json_loads name w
    = (Ret (Some (version_info (source_url cc) (Release r) now0 updated0 hashes0)), w) ->
  resolve_latest up (source_url cc) (default true (use_releases cc)) w
    = (Ret (Some (Commit c)), w1) ->
  update_component' name w = install' name (source_url cc) (files cc) (Commit c) w1.
Proof.
  intros Hcfg Hcur Hres.
  rewrite get_current_version_run in Hcur. injection Hcur as Hcur.
  rewrite resolve_latest_run in Hres. injection Hres as Hli Hw1.
  rewrite update_component_run, Hcfg, Hcur. cbv zeta. rewrite Hli, Hw1.
  rewrite apply_latest_run. reflexivity.
Qed.

(** X13. A [version.json] whose bytes are not valid text, or are text that
    is not JSON, makes [update_component] raise before any request is sent
    and with nothing changed: [UnicodeDecodeError] in the first case (the
    file is decoded before it is parsed), the error of [json.load] in the
    second.  [check_for_updates] on a configuration with that component
    raises as well, with no file changed. *)
Theorem unreadable_record_raises name cc b w :
  Dict.get name config = Some cc ->
  open_read_error os (version_file name) = None ->
  fs w !! canon os (version_file name) = Some (FBytes b) ->
  text_decodes os b = false \/ json_loads b = None ->
  update_component' name w
  = (Raise (if text_decodes os b then JSONDecodeError else UnicodeDecodeError), w)
  /\ exists e w',
       check_for_updates os config up json_loads w = (Raise e, w')
       /\ fs w' = fs w.
Proof.
  intros Hcfg Hopen Hfs Hbad.
  assert (Hread : forall w0, fs w0 = fs w ->
            read_version os json_loads (version_file name) (fs w0)
            = Raise (if text_decodes os b then JSONDecodeError else UnicodeDecodeError)).
  { intros w0 ->. unfold read_version, read_lookup.
    rewrite version_file_nonempty, Hopen, Hfs. cbn [decode_record].
    destruct (text_decodes os b); [|reflexivity].
    destruct Hbad as [?| ->]; [discriminate|reflexivity]. }
  split.
  - rewrite update_component_run, Hcfg, (Hread w eq_refl). reflexivity.
  - unfold check_for_updates.
    assert (Hin : name ∈ Dict.keys config) by (eapply dict_get_keys, Hcfg).
    generalize (@nil (string * update_entry)).
    assert (Hw : fs w = fs w) by reflexivity. revert Hw Hin.
    generalize w at 1 3 4 as w0.
    induction (Dict.keys config) as [|n names IH]; intros w0 Hw Hin updates;
      [inversion Hin|].
    cbn [check_each]. unfold bind.
    destruct (check_component_frame os config up json_loads n updates w0) as (l & Hw1 & _).
    destruct (decide (n = name)) as [->|Hne].
    + rewrite check_component_run, Hcfg, (Hread w0 Hw). eauto.
    + destruct (check_component os config up json_loads n updates w0) as [[u|e] w1];
        cbn [snd] in Hw1; subst w1.
      * apply elem_of_cons in Hin as [?|Hin]; [congruence|].
        destruct (IH (add_logs l w0) Hw Hin u) as (e & w' & Hrun & Hfs').
        exists e, w'. split; [exact Hrun|exact Hfs'].
      * exists e, (add_logs l w0). split; reflexivity.
Qed.

(** X14. A stored record that is JSON but no object and not empty (a
    list, a string, a number, [true]) has no [get]: once a latest revision
    is resolved the update raises [AttributeError], with no file requested
    or changed; when none is resolved it returns [False]. *)
Theorem non_object_record name cc j w :
  Dict.get name config = Some cc ->
  _get_current_version os json_loads name w = (Ret (Some j), w) ->
  truthy j = true ->
  (forall d, j <> JObj d) ->
  exists ol w1,
    resolve_latest up (source_url cc) (default true (use_releases cc)) w = (Ret ol, w1)
    /\ fs w1 = fs w
    /\ update_component' name w
       = match ol with
         | Some _ => (Raise AttributeError, w1)
         | None => (Ret false, w1)
         end.
Proof.
  intros Hcfg Hcur Htruthy Hobj.
  rewrite get_current_version_run in Hcur. injection Hcur as Hcur.
  eexists _, _. split; [apply resolve_latest_run|]. split; [reflexivity|].
  rewrite update_component_run, Hcfg, Hcur. cbv zeta.
  destruct (latest_of up (source_url cc) (default true (use_releases cc))) as [li|];
    [|reflexivity].
  rewrite apply_latest_run. unfold current_hash. rewrite Htruthy.
  destruct j; try reflexivity. exfalso. eapply Hobj. reflexivity.
Qed.

End UpdateEdges.

(** ** The report of [check_for_updates] *)

Lemma dict_keys_set {V} (k : string) (v : V) d :
  Dict.keys (Dict.set k v d)
  = if decide (k ∈ Dict.keys d) then Dict.keys d else (Dict.keys d ++ [k])%list.
Proof.
  induction d as [|[k' v'] d IH]; simpl.
  - destruct (decide (k ∈ [])) as [Hin|_]; [inversion Hin|reflexivity].
  - destruct (String.eqb k k') eqn:E; simpl.
    + apply String.eqb_eq in E. subst k'.
      destruct (decide (k ∈ k :: Dict.keys d)) as [_|Hn]; [reflexivity|].
      exfalso. apply Hn. left.
    + apply String.eqb_neq in E. rewrite IH.
      destruct (decide (k ∈ Dict.keys d)) as [Hin|Hnin].
      * destruct (decide (k ∈ k' :: Dict.keys d)) as [_|Hn]; [reflexivity|].
        exfalso. apply Hn. right. exact Hin.
      * destruct (decide (k ∈ k' :: Dict.keys d)) as [Hin|_]; [|reflexivity].
        apply elem_of_cons in Hin as [?|?]; contradiction.
Qed.

Lemma dict_keys_set_NoDup {V} (k : string) (v : V) d :
  NoDup (Dict.keys d) -> NoDup (Dict.keys (Dict.set k v d)).
Proof.
  intros Hnd. rewrite dict_keys_set.
  destruct (decide (k ∈ Dict.keys d)) as [_|Hnin]; [exact Hnd|].
  apply NoDup_app. split; [exact Hnd|]. split.
  - intros x Hx Hk. apply list_elem_of_singleton in Hk. subst. contradiction.
  - apply NoDup_singleton.
Qed.

Lemma dict_keys_set_in {V} (k : string) (v : V) d x :
  x ∈ Dict.keys (Dict.set k v d) -> x = k \/ x ∈ Dict.keys d.
Proof.
  rewrite dict_keys_set. destruct (decide (k ∈ Dict.keys d)); [auto|].
  intros Hx. apply elem_of_app in Hx as [Hx|Hx]; [auto|].
  apply list_elem_of_singleton in Hx. auto.
Qed.

Section CheckReport.

Variable os : host.
Variable config : list (string * component_config).
Variable up : upstream.
Variable json_loads : string -> option json.
Variable json_dumps : json -> string.
Variable sha256_hexdigest : string -> string.
Variable isoformat_now : nat -> string.

Local Abbreviation update_component' :=
  (update_component os config up json_loads json_dumps sha256_hexdigest isoformat_now).
Local Abbreviation install' := (install os up json_dumps sha256_hexdigest isoformat_now).
Local Abbreviation check_each' := (check_each os config up json_loads).
Local Abbreviation check_component' := (check_component os config up json_loads).

Local Abbreviation entry_after' := (entry_after os config up json_loads).

Lemma check_component_entry n updates w u w1 name :
  check_component' n updates w = (Ret u, w1) ->
  fs w1 = fs w
  /\ Dict.get name u
     = if decide (n = name) then entry_after' name w (Dict.get name updates)
       else Dict.get name updates.
Proof.
  rewrite check_component_run. unfold entry_after.
  destruct (decide (n = name)) as [->|Hne].
  - destruct (Dict.get name config) as [cc|]; [|discriminate].
    destruct (read_version os json_loads (version_file name) (fs w)) as [cur|e];
      [|discriminate].
    cbv zeta.
    destruct (latest_of up (source_url cc) (default true (use_releases cc))) as [li|].
    + destruct (current_hash cur (version_key li)) as [h|e]; [|discriminate].
      intros [= <- <-]. split; [reflexivity|].
      destruct (eq_str h (latest_version li)); cbn [negb]; [reflexivity|].
      apply dict_get_set_eq.
    + intros [= <- <-]. split; reflexivity.
  - destruct (Dict.get n config) as [cc|]; [|discriminate].
    destruct (read_version os json_loads (version_file n) (fs w)) as [cur|e];
      [|discriminate].
    cbv zeta.
    destruct (latest_of up (source_url cc) (default true (use_releases cc))) as [li|].
    + destruct (current_hash cur (version_key li)) as [h|e]; [|discriminate].
      intros [= <- <-]. split; [reflexivity|].
      destruct (negb (eq_str h (latest_version li))); [|reflexivity].
      apply dict_get_set_ne. congruence.
    + intros [= <- <-]. split; reflexivity.
Qed.

Lemma entry_after_fs name w1 w2 before :
  fs w1 = fs w2 -> entry_after' name w1 before = entry_after' name w2 before.
Proof. intros H. unfold entry_after. rewrite H. reflexivity. Qed.

Lemma entry_after_twice name w before :
  entry_after' name w (entry_after' name w before) = entry_after' name w before.
Proof.
  unfold entry_after.
  destruct (Dict.get name config) as [cc|]; [|reflexivity].
  destruct (read_version os json_loads (version_file name) (fs w)) as [cur|e];
    [|reflexivity].
  destruct (latest_of up (source_url cc) (default true (use_releases cc))) as [li|];
    [|reflexivity].
  destruct (current_hash cur (version_key li)) as [h|e]; [|reflexivity].
  destruct (eq_str h (latest_version li)); reflexivity.
Qed.

Lemma check_each_entry names updates w m w' name :
  check_each' names updates w = (Ret m, w') ->
  Dict.get name m
  = if decide (name ∈ names) then entry_after' name w (Dict.get name updates)
    else Dict.get name updates.
Proof.
  revert updates w. induction names as [|n names IH]; intros updates w Hrun.
  - injection Hrun as <- _.
    destruct (decide (name ∈ [])) as [Hin|_]; [inversion Hin|reflexivity].
  - cbn [check_each] in Hrun. unfold bind in Hrun.
    destruct (check_component' n updates w) as [[u|e] w1] eqn:Hn; [|discriminate].
    destruct (check_component_entry _ _ _ _ _ name Hn) as [Hfs Hu].
    rewrite (IH _ _ Hrun), Hu.
    destruct (decide (n = name)) as [->|Hne].
    + destruct (decide (name ∈ name :: names)) as [_|Hnin];
        [|exfalso; apply Hnin; left].
      destruct (decide (name ∈ names)); [|reflexivity].
      rewrite (entry_after_fs name w1 w _ Hfs). apply entry_after_twice.
    + destruct (decide (name ∈ names)) as [Hin|Hnin].
      * destruct (decide (name ∈ n :: names)) as [_|Hn']; [|exfalso; apply Hn'; right; exact Hin].
        apply entry_after_fs, Hfs.
      * destruct (decide (name ∈ n :: names)) as [Hin|_]; [|reflexivity].
        apply elem_of_cons in Hin as [?|?]; [congruence|contradiction].
Qed.

Lemma check_each_reads names updates w m w' name :
  check_each' names updates w = (Ret m, w') ->
  name ∈ names ->
  exists cc cur,
    Dict.get name config = Some cc
    /\ read_version os json_loads (version_file name) (fs w) = Ret cur
    /\ match latest_of up (source_url cc) (default true (use_releases cc)) with
       | Some li => exists h, current_hash cur (version_key li) = Ret h
       | None => True
       end.
Proof.
  revert updates w. induction names as [|n names IH]; intros updates w Hrun Hin;
    [inversion Hin|].
  cbn [check_each] in Hrun. unfold bind in Hrun.
  destruct (check_component' n updates w) as [[u|e] w1] eqn:Hn; [|discriminate].
  destruct (decide (n = name)) as [->|Hne].
  - clear IH Hrun. rewrite check_component_run in Hn.
    destruct (Dict.get name config) as [cc|]; [|discriminate].
    destruct (read_version os json_loads (version_file name) (fs w)) as [cur|e];
      [|discriminate].
    exists cc, cur. split; [reflexivity|]. split; [reflexivity|].
    cbv zeta in Hn.
    destruct (latest_of up (source_url cc) (default true (use_releases cc))) as [li|];
      [|exact I].
    destruct (current_hash cur (version_key li)) as [h|e]; [eauto|discriminate].
  - apply elem_of_cons in Hin as [?|Hin]; [congruence|].
    destruct (check_component_entry _ _ _ _ _ name Hn) as [Hfs _].
    destruct (IH _ _ Hrun Hin) as (cc & cur & Hcfg & Hcur & Hli).
    exists cc, cur. rewrite <- Hfs. auto.
Qed.

(** X15. The report agrees with what an update would do.  For a configured
    component, in the world the check started from: when no revision can
    be resolved it is not reported and its update returns [False]; when it
    is not reported and a revision is resolved, its update is the no-op
    that returns [True]; when it is reported, the entry carries the
    resolved identifier and the source URL, and its update runs the
    download loop. *)
Theorem check_agrees_with_update name cc ol w w1 m w' :
  check_for_updates os config up json_loads w = (Ret m, w') ->
  Dict.get name config = Some cc ->
  resolve_latest up (source_url cc) (default true (use_releases cc)) w = (Ret ol, w1) ->
  match ol with
  | None => Dict.get name m = None /\ update_component' name w = (Ret false, w1)
  | Some li =>
      (Dict.get name m = None -> update_component' name w = (Ret true, w1))
      /\ (forall e, Dict.get name m = Some e ->
            latest e = latest_version li
            /\ url e = source_url cc
            /\ update_component' name w
               = install' name (source_url cc) (files cc) li w1)
  end.
Proof.
  intros Hrun Hcfg Hres. unfold check_for_updates in Hrun.
  assert (Hin : name ∈ Dict.keys config) by (eapply dict_get_keys, Hcfg).
  destruct (check_each_reads _ _ _ _ _ name Hrun Hin) as (cc' & cur & Hcfg' & Hcur & Hh).
  rewrite Hcfg in Hcfg'. injection Hcfg' as <-.
  pose proof (check_each_entry _ _ _ _ _ name Hrun) as Hm.
  destruct (decide (name ∈ Dict.keys config)) as [_|?]; [|contradiction].
  unfold entry_after in Hm. rewrite Hcfg, Hcur in Hm. cbn [Dict.get] in Hm.
  rewrite resolve_latest_run in Hres. injection Hres as Hli Hw1.
  rewrite update_component_run, Hcfg, Hcur. cbv zeta. rewrite Hw1.
  destruct (latest_of up (source_url cc) (default true (use_releases cc))) as [li|];
    subst ol.
  - destruct Hh as [h Hh]. rewrite Hh in Hm.
    rewrite apply_latest_run, Hh.
    destruct (eq_str h (latest_version li)).
    + split; [reflexivity|]. intros e He. congruence.
    + split; [intros Hnone; congruence|].
      intros e He. rewrite Hm in He. injection He as <-. repeat split.
  - split; [exact Hm|reflexivity].
Qed.

Lemma check_each_keys names updates w m w' :
  check_each' names updates w = (Ret m, w') ->
  (forall n, n ∈ Dict.keys m -> n ∈ names \/ n ∈ Dict.keys updates)
  /\ (NoDup (Dict.keys updates) -> NoDup (Dict.keys m)).
Proof.
  revert updates w. induction names as [|n names IH]; intros updates w Hrun.
  - injection Hrun as <- _. split; [auto|auto].
  - cbn [check_each] in Hrun. unfold bind in Hrun.
    destruct (check_component' n updates w) as [[u|e] w1] eqn:Hn; [|discriminate].
    destruct (IH _ _ Hrun) as [Hkeys Hnd].
    assert (Hu : (forall x, x ∈ Dict.keys u -> x = n \/ x ∈ Dict.keys updates)
                 /\ (NoDup (Dict.keys updates) -> NoDup (Dict.keys u))).
    { rewrite check_component_run in Hn.
      destruct (Dict.get n config) as [cc|]; [|discriminate].
      destruct (read_version os json_loads (version_file n) (fs w)) as [cur|e];
        [|discriminate].
      cbv zeta in Hn.
      destruct (latest_of up (source_url cc) (default true (use_releases cc))) as [li|].
      - destruct (current_hash cur (version_key li)) as [h|e]; [|discriminate].
        injection Hn as <- _.
        destruct (negb (eq_str h (latest_version li))); [|auto].
        split; [apply dict_keys_set_in|apply dict_keys_set_NoDup].
      - injection Hn as <- _. auto. }
    destruct Hu as [Hu Hund]. split.
    + intros x Hx. destruct (Hkeys x Hx) as [Hx'|Hx'].
      * left. right. exact Hx'.
      * destruct (Hu x Hx') as [->|Hx'']; [left; left|right; exact Hx''].
    + intros H. apply Hnd, Hund, H.
Qed.

(** X16. [check_for_updates] reports configured components only, and each
    at most once. *)
Theorem check_reports_configured_once w m w' :
  check_for_updates os config up json_loads w = (Ret m, w') ->
  (forall n, n ∈ Dict.keys m -> n ∈ Dict.keys config)
  /\ NoDup (Dict.keys m).
Proof.
  intros Hrun. unfold check_for_updates in Hrun.
  destruct (check_each_keys _ _ _ _ _ Hrun) as [Hkeys Hnd]. split.
  - intros n Hn. destruct (Hkeys n Hn) as [H|H]; [exact H|inversion H].
  - apply Hnd. constructor.
Qed.

Lemma check_component_same_fs n updates w1 w2 :
  fs w1 = fs w2 ->
  fst (check_component' n updates w1) = fst (check_component' n updates w2).
Proof.
  intros Hfs. rewrite !check_component_run, Hfs.
  destruct (Dict.get n config) as [cc|]; [|reflexivity].
  destruct (read_version os json_loads (version_file n) (fs w2)); [|reflexivity].
  cbv zeta.
  destruct (latest_of up (source_url cc) (default true (use_releases cc))) as [li|];
    [|reflexivity].
  destruct (current_hash a (version_key li)); reflexivity.
Qed.

Lemma check_each_same_fs names updates w1 w2 :
  fs w1 = fs w2 ->
  fst (check_each' names updates w1) = fst (check_each' names updates w2).
Proof.
  revert updates w1 w2. induction names as [|n names IH]; intros updates w1 w2 Hfs;
    [reflexivity|].
  cbn [check_each]. unfold bind.
  pose proof (check_component_same_fs n updates w1 w2 Hfs) as Hsame.
  destruct (check_component_frame os config up json_loads n updates w1) as (l1 & Hw1 & _).
  destruct (check_component_frame os config up json_loads n updates w2) as (l2 & Hw2 & _).
  destruct (check_component' n updates w1) as [[u1|e1] w1'];
    destruct (check_component' n updates w2) as [[u2|e2] w2'];
    cbn [fst snd] in *; try discriminate.
  - injection Hsame as ->. apply IH. subst w1' w2'. exact Hfs.
  - exact Hsame.
Qed.

(** X17. The report depends on the files on disk and the upstream only,
    not on the requests sent before or on the clock; so a second
    [check_for_updates] right after a first gives the same report (or
    raises the same exception). *)
Theorem check_for_updates_repeatable w :
  (forall w2, fs w2 = fs w ->
     fst (check_for_updates os config up json_loads w2)
     = fst (check_for_updates os config up json_loads w))
  /\ fst (check_for_updates os config up json_loads
            (snd (check_for_updates os config up json_loads w)))
     = fst (check_for_updates os config up json_loads w).
Proof.
  split.
  - intros w2 Hfs. apply check_each_same_fs, Hfs.
  - apply check_each_same_fs.
    destruct (check_each_frame os config up json_loads (Dict.keys config) [] w) as (l & Hw & _).
    unfold check_for_updates. rewrite Hw. reflexivity.
Qed.

End CheckReport.

(** ** The command line *)

Lemma failed_names_in (results : list (string * bool)) n :
  n ∈ failed_names results <-> (n, false) ∈ results.
Proof.
  unfold failed_names. induction results as [|[k b] results IH]; simpl.
  - split; intros H; inversion H.
  - destruct b; simpl.
    + rewrite IH. split; [intros H; right; exact H|].
      intros H. apply elem_of_cons in H as [[=]|H]; exact H.
    + rewrite !elem_of_cons, IH. split; intros [H|H]; auto.
      * left. congruence.
      * left. congruence.
Qed.

Lemma failed_names_nil (names : list string) (bs : list bool) :
  length bs = length names ->
  failed_names (zip names bs) = [] <-> forall b, b ∈ bs -> b = true.
Proof.
  revert bs. induction names as [|n names IH]; intros [|b bs] Hlen; try discriminate.
  - split; [intros _ b H; inversion H|reflexivity].
  - simpl in Hlen. injection Hlen as Hlen. specialize (IH bs Hlen).
    unfold failed_names in *. cbn [zip zip_with List.filter snd].
    destruct b; cbn [negb map].
    + rewrite IH. split.
      * intros H b Hb. apply elem_of_cons in Hb as [->|Hb]; auto.
      * intros H b Hb. apply H. right. exact Hb.
    + split; [discriminate|]. intros H.
      specialize (H false ltac:(left)). discriminate.
Qed.

Section CommandLineProperties.

Variable os : host.
Variable config : list (string * component_config).
Variable up : upstream.
Variable json_loads : string -> option json.
Variable json_dumps : json -> string.
Variable sha256_hexdigest : string -> string.
Variable isoformat_now : nat -> string.
Variable py_str : json -> string.

Local Abbreviation update_component' :=
  (update_component os config up json_loads json_dumps sha256_hexdigest isoformat_now).
Local Abbreviation main' :=
  (main os config up json_loads json_dumps sha256_hexdigest isoformat_now py_str).

(** X18. Without [--check] and without a component name (or with an empty
    one), when the update of every configured component returns, [main]
    prints one line: the success line when every update returned [True],
    otherwise the failure line with exactly the names whose update returned
    [False], in configuration order. *)
Theorem main_reports_failed a w bs w' :
  NoDup (Dict.keys config) ->
  check a = false ->
  given (component a) = false ->
  each_returns update_component' (Dict.keys config) w bs w' ->
  main' a w
  = (Ret [match failed_names (zip (Dict.keys config) bs) with
          | [] => "✅ Todos los componentes actualizados exitosamente"
          | failed => "❌ Falló la actualización de: " +:+ String.concat ", " failed
          end], w')
  /\ (failed_names (zip (Dict.keys config) bs) = [] <-> forall b, b ∈ bs -> b = true)
  /\ (forall n, n ∈ failed_names (zip (Dict.keys config) bs)
                <-> (n, false) ∈ zip (Dict.keys config) bs).
Proof.
  intros Hnd Hcheck Hgiven Hruns.
  assert (Hlen : length bs = length (Dict.keys config))
    by (eapply each_returns_length, Hruns).
  assert (Hall : update_all_components os config up json_loads json_dumps
                   sha256_hexdigest isoformat_now w
                 = (Ret (zip (Dict.keys config) bs), w')).
  { unfold update_all_components. apply update_each_iff. exists bs.
    split; [exact Hruns|].
    rewrite fold_set_fresh; [reflexivity|exact Hnd|exact Hlen|].
    intros n _ Hin. inversion Hin. }
  split; [|split].
  - unfold main. rewrite Hcheck, Hgiven. unfold bind. rewrite Hall.
    destruct (failed_names (zip (Dict.keys config) bs)); reflexivity.
  - apply failed_names_nil, Hlen.
  - intros n. apply failed_names_in.
Qed.

(** X19. With [--check], whatever else is given, [main] changes no file,
    requests no file and does not read the clock; when the check returns
    it prints the "all up to date" line for an empty report, and otherwise
    a header followed by one line per reported component, in the order of
    the report; an exception of the check is not caught. *)
Theorem main_check_mode a w :
  check a = true ->
  (exists l,
     fs (snd (main' a w)) = fs w
     /\ ticks (snd (main' a w)) = ticks w
     /\ log (snd (main' a w)) = (log w ++ l)%list
     /\ forallb (fun r => negb (is_download r)) l = true)
  /\ (forall m w',
        check_for_updates os config up json_loads w = (Ret m, w') ->
        main' a w
        = (Ret (match m with
                | [] => ["Todos los componentes están actualizados"]
                | _ => "Actualizaciones disponibles:" :: map (update_line py_str) m
                end), w'))
  /\ (forall e w',
        check_for_updates os config up json_loads w = (Raise e, w') ->
        main' a w = (Raise e, w')).
Proof.
  intros Hcheck. unfold main. rewrite Hcheck. unfold bind.
  destruct (check_each_frame os config up json_loads (Dict.keys config) [] w)
    as (l & Hw & Hl).
  fold (check_for_updates os config up json_loads) in Hw.
  destruct (check_for_updates os config up json_loads w) as [[m|e] w1];
    cbn [snd] in Hw; subst w1.
  - split; [|split].
    + exists l. destruct m; cbn [snd ret fs ticks log add_logs]; repeat split; exact Hl.
    + intros m' w' [= <- <-]. destruct m; reflexivity.
    + intros e w' [=].
  - split; [|split].
    + exists l. cbn [snd fs ticks log add_logs]. repeat split. exact Hl.
    + intros m w' [=].
    + intros e' w' [= <- <-]. reflexivity.
Qed.

(** X20. With a component name and without [--check], [main] runs the
    update of that component only and prints nothing, whether the update
    returned [True] or [False] and also when the name is not configured;
    an empty name counts as no name. *)
Theorem main_single_component_silent a name w :
  check a = false ->
  component a = Some name ->
  name <> EmptyString ->
  (forall b w', update_component' name w = (Ret b, w') -> main' a w = (Ret [], w'))
  /\ (Dict.get name config = None -> main' a w = (Ret [], w))
  /\ main' {| check := false; component := Some EmptyString |} w
     = main' {| check := false; component := None |} w.
Proof.
  intros Hcheck Hcomp Hne.
  assert (Hgiven : given (component a) = true).
  { rewrite Hcomp. cbn [given]. apply String.eqb_neq in Hne. rewrite Hne. reflexivity. }
  split; [|split].
  - intros b w' Hrun. unfold main. rewrite Hcheck, Hgiven, Hcomp.
    change (default EmptyString (Some name)) with name.
    unfold bind. rewrite Hrun. reflexivity.
  - intros Hcfg. unfold main. rewrite Hcheck, Hgiven, Hcomp.
    change (default EmptyString (Some name)) with name.
    unfold bind. rewrite update_component_run, Hcfg. reflexivity.
  - reflexivity.
Qed.

End CommandLineProperties.

(** ** One run after another *)

Section Sequences.

Variable os : host.
Variable config : list (string * component_config).
Variable up : upstream.
Variable json_loads : string -> option json.
Variable json_dumps : json -> string.
Variable sha256_hexdigest : string -> string.
Variable isoformat_now : nat -> string.

Local Abbreviation update_component' :=
  (update_component os config up json_loads json_dumps sha256_hexdigest isoformat_now).

(** X21. A component whose update has just returned [True] is not in the
    report of a [check_for_updates] that follows against the same
    upstream. *)
Theorem updated_component_not_reported name w w1 m w' :
  update_component' name w = (Ret true, w1) ->
  check_for_updates os config up json_loads w1 = (Ret m, w') ->
  Dict.get name m = None.
Proof.
  intros Hrun Hcheck.
  destruct (update_component_true_inv _ _ _ _ _ _ _ _ _ _ Hrun)
    as (cc & cur & li & h & Hcfg & Hcur & Hli & Hh & Hcase).
  unfold check_for_updates in Hcheck.
  rewrite (check_each_entry _ _ _ _ _ _ _ _ _ name Hcheck).
  destruct (decide (name ∈ Dict.keys config)); [|reflexivity].
  unfold entry_after. rewrite Hcfg, Hli.
  destruct Hcase as [[Heq ->]|[Hne (hs & _ & _ & _ & ->)]].
  - cbn [fs add_logs]. rewrite Hcur, Hh, Heq. reflexivity.
  - cbn [fs after_install].
    rewrite (read_version_written os json_loads name _ _ _ _ Hcur).
    rewrite current_hash_version_info. cbn [eq_str]. rewrite String.eqb_refl.
    reflexivity.
Qed.


End Sequences.

(** ** The further properties on the example inputs *)

Ltac by_eval := vm_compute; reflexivity.

Lemma github_url_parts_witness :
  repo_parts ("https://github.com/" +:+ "o" +:+ "/" +:+ "card") = ["o"; "card"].
Proof. exact (proj1 (github_url_parts "o" "card" eq_refl eq_refl)). Defined.

Lemma invalid_repository_reference_witness :
  _get_latest_release Ex.up "nowhere" Ex.w0 = (Ret None, Ex.w0)
  /\ Ex.update_component "broken" Ex.w0 = (Ret false, Ex.w0).
Proof.
  assert (Hshort : length (repo_parts "nowhere") < 2) by (vm_compute; lia).
  destruct (invalid_repository_reference Ex.os Ex.config Ex.up Ex.json_loads Ex.json_dumps
              Ex.sha256_hexdigest Ex.isoformat_now "nowhere" Ex.w0 Hshort)
    as (Hrel & _ & Hupdate).
  split; [exact Hrel|].
  apply (Hupdate "broken"
           {| source_url := "nowhere";
              files := [ {| source := "x.js"; destination := "x.js" |} ];
              use_releases := None |} None); by_eval.
Defined.

Lemma get_latest_commit_requests_witness :
  _get_latest_commit Ex.up "https://github.com/o/plain" "master" Ex.w0
  = (Ret (Some {| sha := "0123456789abcdef" |}),
     add_logs [ReqCommit "https://api.github.com/repos/o/plain/commits/master"] Ex.w0).
Proof.
  destruct (get_latest_commit_requests Ex.up "https://github.com/o/plain" "master" Ex.w0)
    as (oc & l & Hrun & _ & _ & _ & Hfirst).
  destruct (Hfirst "o" "plain" [] {| sha := "0123456789abcdef" |} eq_refl eq_refl)
    as [-> ->].
  exact Hrun.
Defined.

Lemma commit_identifier_prefix_witness :
  Ex.update_component "chart" ExMore.w_chart_same_prefix
  = (Ret true,
     snd (resolve_latest Ex.up (source_url Ex.chart_cc)
            (default true (use_releases Ex.chart_cc)) ExMore.w_chart_same_prefix)).
Proof.
  refine (proj2 (proj2 (commit_identifier_prefix Ex.os Ex.config Ex.up Ex.json_loads
                          Ex.json_dumps Ex.sha256_hexdigest Ex.isoformat_now
                          Ex.chart_commit))
            "chart" Ex.chart_cc
            [("version", JStr "a1b2c3d4"); ("commit_hash", JStr "a1b2c3d4")]
            ExMore.old_chart_commit ExMore.w_chart_same_prefix _ _ _ _ _ _);
    by_eval.
Defined.


Lemma update_component_frame_witness :
  fs (snd (Ex.update_component "plain" ExMore.w_plain_release)) !! "notes.txt"
  = fs ExMore.w_plain_release !! "notes.txt".
Proof.
  apply (update_component_frame Ex.os Ex.config Ex.up Ex.json_loads Ex.json_dumps
           Ex.sha256_hexdigest Ex.isoformat_now "plain" Ex.plain_cc).
  - reflexivity.
  - vm_compute. discriminate.
  - intros f Hf. apply list_elem_of_singleton in Hf. subst f. vm_compute. discriminate.
Defined.

Lemma updates_keep_files_witness :
  is_Some (fs (snd (update_all_components Ex.os Ex.config Ex.up Ex.json_loads Ex.json_dumps
                      Ex.sha256_hexdigest Ex.isoformat_now ExMore.w_plain_release))
           !! "notes.txt").
Proof.
  apply (updates_keep_files Ex.os Ex.config Ex.up Ex.json_loads Ex.json_dumps
           Ex.sha256_hexdigest Ex.isoformat_now ExMore.w_plain_release "notes.txt").
  exists (FBytes "keep me"). reflexivity.
Defined.

Lemma install_downloads_in_order_witness :
  exists w',
    Ex.update_component "plain" Ex.w0 = (Ret true, w')
    /\ log w' = [ReqRelease "https://api.github.com/repos/o/plain/releases/latest";
                 ReqCommit "https://api.github.com/repos/o/plain/commits/master";
                 ReqFile "https://github.com/o/plain/raw/0123456789abcdef/p.js"]
    /\ ticks w' = 1.
Proof.
  destruct (install_downloads_in_order Ex.os Ex.config Ex.up Ex.json_loads Ex.json_dumps
              Ex.sha256_hexdigest Ex.isoformat_now "plain" Ex.plain_cc None
              (Commit {| sha := "0123456789abcdef" |}) None Ex.w0
              (snd (resolve_latest Ex.up (source_url Ex.plain_cc)
                      (default true (use_releases Ex.plain_cc)) Ex.w0))
              ltac:(by_eval) ltac:(by_eval) ltac:(by_eval) ltac:(by_eval)
              ltac:(by_eval) ltac:(by_eval) ltac:(intros; reflexivity) ltac:(by_eval))
    as (w' & Hrun & Hlog & Hticks & _).
  exists w'. split; [exact Hrun|]. split; [exact Hlog|exact Hticks].
Defined.

Lemma installed_record_fields_witness :
  exists w' d hashes,
    Ex.update_component "plain" Ex.w0 = (Ret true, w')
    /\ fs w' !! "plain/version.json" = Some (FJson (JObj d))
    /\ Dict.get "source_url" d = Some (JStr "https://github.com/o/plain")
    /\ Dict.get "files" d = Some (JList [JStr "plain/p.js"])
    /\ Dict.get "file_hashes" d = Some (JObj hashes)
    /\ exists b,
         fs w' !! "plain/p.js" = Some (FBytes b)
         /\ Dict.get "plain/p.js" hashes = Some (JStr (Ex.sha256_hexdigest b)).
Proof.
  destruct (installed_record_fields Ex.os Ex.config Ex.up Ex.json_loads Ex.json_dumps
              Ex.sha256_hexdigest Ex.isoformat_now "plain" Ex.plain_cc None
              (Commit {| sha := "0123456789abcdef" |}) None Ex.w0
              (snd (resolve_latest Ex.up (source_url Ex.plain_cc)
                      (default true (use_releases Ex.plain_cc)) Ex.w0))
              ltac:(by_eval) ltac:(by_eval) ltac:(by_eval) ltac:(by_eval)
              ltac:(by_eval) ltac:(by_eval) ltac:(intros; reflexivity) ltac:(by_eval))
    as (w' & d & hashes & Hrun & Hfs & Hsrc & _ & Hfiles & Hhashes & Heach).
  exists w', d, hashes. repeat (split; [assumption|]).
  apply (Heach {| source := "p.js"; destination := "p.js" |}).
  - left.
  - vm_compute. discriminate.
Defined.

Lemma release_record_forces_commit_install_witness :
  Ex.update_component "plain" ExMore.w_plain_release
  = install Ex.os Ex.up Ex.json_dumps Ex.sha256_hexdigest Ex.isoformat_now
      "plain" (source_url Ex.plain_cc) (files Ex.plain_cc)
      (Commit {| sha := "0123456789abcdef" |})
      (snd (resolve_latest Ex.up (source_url Ex.plain_cc)
              (default true (use_releases Ex.plain_cc)) ExMore.w_plain_release)).
Proof.
  apply (release_record_forces_commit_install Ex.os Ex.config Ex.up Ex.json_loads
           Ex.json_dumps Ex.sha256_hexdigest Ex.isoformat_now "plain" Ex.plain_cc
           {| tag_name := "v1.0"; assets := [] |} "2024-04-01T09:00:00" ["plain/p.js"]
           [("plain/p.js", JStr "sha256 of old")]);
    by_eval.
Defined.

Lemma unreadable_record_raises_witness :
  (Ex.update_component "card" ExMore.w_damaged = (Raise JSONDecodeError, ExMore.w_damaged)
   /\ exists e w',
        check_for_updates Ex.os Ex.config Ex.up Ex.json_loads ExMore.w_damaged = (Raise e, w')
        /\ fs w' = fs ExMore.w_damaged)
  /\ Ex.update_component "plain" ExMore.w_damaged
     = (Raise UnicodeDecodeError, ExMore.w_damaged).
Proof.
  split.
  - apply (unreadable_record_raises Ex.os Ex.config Ex.up Ex.json_loads Ex.json_dumps
             Ex.sha256_hexdigest Ex.isoformat_now "card" Ex.card_cc "not json");
      try by_eval.
    right. reflexivity.
  - refine (proj1 (unreadable_record_raises Ex.os Ex.config Ex.up Ex.json_loads
                     Ex.json_dumps Ex.sha256_hexdigest Ex.isoformat_now "plain"
                     Ex.plain_cc (String "255"%char (String "254"%char "{}"))
                     ExMore.w_damaged _ _ _ _)); try by_eval.
    left. reflexivity.
Defined.

Lemma non_object_record_witness :
  exists ol w1,
    resolve_latest Ex.up (source_url Ex.chart_cc) (default true (use_releases Ex.chart_cc))
      ExMore.w_damaged = (Ret ol, w1)
    /\ fs w1 = fs ExMore.w_damaged
    /\ Ex.update_component "chart" ExMore.w_damaged
       = match ol with
         | Some _ => (Raise AttributeError, w1)
         | None => (Ret false, w1)
         end.
Proof.
  apply (non_object_record Ex.os Ex.config Ex.up Ex.json_loads Ex.json_dumps
           Ex.sha256_hexdigest Ex.isoformat_now "chart" Ex.chart_cc
           (JList [JStr "a1b2c3d4"])); try by_eval.
  intros d. discriminate.
Defined.

Lemma check_agrees_with_update_witness :
  Ex.update_component "card" Ex.w_installed
  = (Ret true,
     snd (resolve_latest Ex.up (source_url Ex.card_cc)
            (default true (use_releases Ex.card_cc)) Ex.w_installed))
  /\ Ex.update_component "chart" Ex.w_installed
     = install Ex.os Ex.up Ex.json_dumps Ex.sha256_hexdigest Ex.isoformat_now
         "chart" (source_url Ex.chart_cc) (files Ex.chart_cc) (Commit Ex.chart_commit)
         (snd (resolve_latest Ex.up (source_url Ex.chart_cc)
                 (default true (use_releases Ex.chart_cc)) Ex.w_installed)).
Proof.
  pose (m := [("chart", {| current := JStr "00000000"; latest := "a1b2c3d4";
                           url := "https://github.com/o/chart" |});
              ("plain", {| current := JStr "N/A"; latest := "01234567";
                           url := "https://github.com/o/plain" |})]).
  assert (Hcheck : check_for_updates Ex.os Ex.config Ex.up Ex.json_loads Ex.w_installed
                   = (Ret m, snd (check_for_updates Ex.os Ex.config Ex.up Ex.json_loads
                                    Ex.w_installed))) by by_eval.
  split.
  - apply (check_agrees_with_update Ex.os Ex.config Ex.up Ex.json_loads Ex.json_dumps
             Ex.sha256_hexdigest Ex.isoformat_now "card" Ex.card_cc
             (Some (Release Ex.card_release)) Ex.w_installed _ m _ Hcheck);
      by_eval.
  - eapply (check_agrees_with_update Ex.os Ex.config Ex.up Ex.json_loads Ex.json_dumps
              Ex.sha256_hexdigest Ex.isoformat_now "chart" Ex.chart_cc
              (Some (Commit Ex.chart_commit)) Ex.w_installed _ m _ Hcheck
              ltac:(by_eval) ltac:(by_eval)).
    reflexivity.
Defined.

Lemma check_reports_configured_once_witness :
  (forall n, n ∈ ["card"; "chart"; "plain"] -> n ∈ Dict.keys Ex.config)
  /\ NoDup ["card"; "chart"; "plain"].
Proof.
  apply (check_reports_configured_once Ex.os Ex.config Ex.up Ex.json_loads Ex.w0
           [("card", {| current := JStr "N/A"; latest := "v2.0";
                        url := "https://github.com/o/card" |});
            ("chart", {| current := JStr "N/A"; latest := "a1b2c3d4";
                         url := "https://github.com/o/chart" |});
            ("plain", {| current := JStr "N/A"; latest := "01234567";
                         url := "https://github.com/o/plain" |})]
           (snd (check_for_updates Ex.os Ex.config Ex.up Ex.json_loads Ex.w0))).
  by_eval.
Defined.

Lemma check_for_updates_repeatable_witness :
  fst (check_for_updates Ex.os Ex.config Ex.up Ex.json_loads
         {| fs := fs Ex.w_installed; log := [ReqFile "earlier"]; ticks := 7 |})
  = fst (check_for_updates Ex.os Ex.config Ex.up Ex.json_loads Ex.w_installed).
Proof.
  apply (proj1 (check_for_updates_repeatable Ex.os Ex.config Ex.up Ex.json_loads Ex.w_installed)).
  reflexivity.
Defined.

Lemma main_reports_failed_witness :
  exists w',
    ExMore.main {| check := false; component := None |} Ex.w0
    = (Ret ["❌ Falló la actualización de: broken, chart"], w').
Proof.
  pose (w1 := snd (Ex.update_component "broken" Ex.w0)).
  pose (w2 := snd (Ex.update_component "card" w1)).
  pose (w3 := snd (Ex.update_component "chart" w2)).
  pose (w4 := snd (Ex.update_component "plain" w3)).
  assert (Hruns : each_returns Ex.update_component (Dict.keys Ex.config) Ex.w0
                    [false; true; false; true] w4).
  { apply (each_cons _ "broken" _ Ex.w0 false w1); [by_eval|].
    apply (each_cons _ "card" _ w1 true w2); [by_eval|].
    apply (each_cons _ "chart" _ w2 false w3); [by_eval|].
    apply (each_cons _ "plain" _ w3 true w4); [by_eval|].
    apply each_nil. }
  exists w4.
  exact (proj1 (main_reports_failed Ex.os Ex.config Ex.up Ex.json_loads Ex.json_dumps
                  Ex.sha256_hexdigest Ex.isoformat_now ExMore.py_str
                  {| check := false; component := None |} Ex.w0
                  [false; true; false; true] w4
                  ltac:(compute_done) eq_refl eq_refl Hruns)).
Defined.

Lemma main_check_mode_witness :
  exists l,
    fs (snd (ExMore.main {| check := true; component := Some "card" |} Ex.w_installed))
      = fs Ex.w_installed
    /\ ticks (snd (ExMore.main {| check := true; component := Some "card" |} Ex.w_installed))
       = ticks Ex.w_installed
    /\ log (snd (ExMore.main {| check := true; component := Some "card" |} Ex.w_installed))
       = (log Ex.w_installed ++ l)%list
    /\ forallb (fun r => negb (is_download r)) l = true.
Proof.
  exact (proj1 (main_check_mode Ex.os Ex.config Ex.up Ex.json_loads Ex.json_dumps
                  Ex.sha256_hexdigest Ex.isoformat_now ExMore.py_str
                  {| check := true; component := Some "card" |} Ex.w_installed eq_refl)).
Defined.

Lemma main_single_component_silent_witness :
  ExMore.main {| check := false; component := Some "chart" |} Ex.w_installed
  = (Ret [], snd (Ex.update_component "chart" Ex.w_installed)).
Proof.
  apply (proj1 (main_single_component_silent Ex.os Ex.config Ex.up Ex.json_loads Ex.json_dumps
                  Ex.sha256_hexdigest Ex.isoformat_now ExMore.py_str
                  {| check := false; component := Some "chart" |} "chart" Ex.w_installed
                  eq_refl eq_refl ltac:(discriminate)) false).
  by_eval.
Defined.

Lemma updated_component_not_reported_witness :
  Dict.get "plain"
    (match fst (check_for_updates Ex.os Ex.config Ex.up Ex.json_loads
                  (snd (Ex.update_component "plain" Ex.w0))) with
     | Ret m => m
     | Raise _ => []
     end) = None.
Proof.
  apply (updated_component_not_reported Ex.os Ex.config Ex.up Ex.json_loads Ex.json_dumps
           Ex.sha256_hexdigest Ex.isoformat_now "plain" Ex.w0
           (snd (Ex.update_component "plain" Ex.w0)) _
           (snd (check_for_updates Ex.os Ex.config Ex.up Ex.json_loads
                   (snd (Ex.update_component "plain" Ex.w0)))));
    by_eval.
Defined.

